(** * Question transformation library (src/nested.ts)

    A shallow embedding of the functions of [nested.ts] and the proofs of
    the properties stated about them.

    Two readings of the same source are given.

    - [Nested]: value semantics.  A [Question] carries its [options] as a
      list of strings; the functions are the array pipelines of the source
      ([filter], [map], [flatMap], [find], [every], [reduce], [splice],
      [join]) written over lists.
    - [NestedHeap]: reference semantics.  A [Question] carries a reference to
      an options array living in a store; the array literal
      [[...q.options]] allocates, an object that is handed back as it is
      keeps the reference it had.  This is the reading in which aliasing
      between the input and the output of a function can be stated.

    Numbers are modelled as [Z]: the ids, points and indices of the library
    are integers, and the double-precision effects of JavaScript (rounding
    above 2^53, exponent notation of [String] from 1e21 on, NaN) are outside
    the model; a statement that depends on additions being exact carries the
    bound 2^53 as a hypothesis.  Strings are byte strings, the UTF-8
    encoding of the text. *)

From Stdlib Require Import ZArith Ascii String DecimalString.
From stdpp Require Import gmap strings list.

Local Open Scope Z_scope.

(** ** The JavaScript built-ins the source calls *)

Module Js.

(** The line feed of the string literal ["\n"]. *)
Definition nl : string := String "010"%char EmptyString.

(** [String(n)] for an integer [n]. *)
Definition String_number (n : Z) : string :=
  NilZero.string_of_int (Z.to_int n).

(** [String(b)] for a boolean [b]. *)
Definition String_boolean (b : bool) : string :=
  if b then "true" else "false".

(** [Array.prototype.join]: a loop over the elements that appends the
    separator before every element except the first one. *)
Fixpoint join_loop (sep : string) (R : string) (k : nat) (l : list string)
  : string :=
  match l with
  | [] => R
  | next :: l' =>
      let R := match k with O => R | S _ => R +:+ sep end in
      join_loop sep (R +:+ next) (S k) l'
  end.

Definition join (sep : string) (l : list string) : string :=
  join_loop sep "" 0 l.

(** [Array.prototype.toString] is [join(",")]; it is what [join] applies
    to an element that is itself an array. *)
Definition Array_toString (l : list string) : string := join "," l.

(** White space of [String.prototype.trim] (the WhiteSpace and
    LineTerminator characters of ECMAScript), given by the bytes of its
    UTF-8 encoding: TAB, LF, VT, FF, CR and SPACE; U+00A0 (C2 A0);
    U+1680 (E1 9A 80); U+2000 to U+200A (E2 80 80 to E2 80 8A); U+2028,
    U+2029 and U+202F (E2 80 A8, A9, AF); U+205F (E2 81 9F); U+3000
    (E3 80 80); U+FEFF (EF BB BF). *)
Definition is_white_space (bytes : list N) : bool :=
  match bytes with
  | [a] =>
      (a =? 9)%N || (a =? 10)%N || (a =? 11)%N || (a =? 12)%N
      || (a =? 13)%N || (a =? 32)%N
  | [a; b] => (a =? 194)%N && (b =? 160)%N
  | [a; b; c] =>
      (a =? 225)%N && (b =? 154)%N && (c =? 128)%N
      || (a =? 226)%N && (b =? 128)%N
         && ((128 <=? c)%N && (c <=? 138)%N
             || (c =? 168)%N || (c =? 169)%N || (c =? 175)%N)
      || (a =? 226)%N && (b =? 129)%N && (c =? 159)%N
      || (a =? 227)%N && (b =? 128)%N && (c =? 128)%N
      || (a =? 239)%N && (b =? 187)%N && (c =? 191)%N
  | _ => false
  end.

(** A string cut into white-space characters and other bytes.  A token is
    never empty: it has a first byte and the bytes after it. *)
Record token : Type := mkToken {
  tok_white : bool;
  tok_first : ascii;
  tok_rest : string
}.

Fixpoint tokens (s : string) : list token :=
  match s with
  | EmptyString => []
  | String c1 s1 =>
      if is_white_space [N_of_ascii c1]
      then mkToken true c1 EmptyString :: tokens s1
      else
        match s1 with
        | String c2 s2 =>
            if is_white_space [N_of_ascii c1; N_of_ascii c2]
            then mkToken true c1 (String c2 EmptyString) :: tokens s2
            else
              match s2 with
              | String c3 s3 =>
                  if is_white_space
                       [N_of_ascii c1; N_of_ascii c2; N_of_ascii c3]
                  then mkToken true c1 (String c2 (String c3 EmptyString))
                       :: tokens s3
                  else mkToken false c1 EmptyString :: tokens s1
              | EmptyString => mkToken false c1 EmptyString :: tokens s1
              end
        | EmptyString => mkToken false c1 EmptyString :: tokens s1
        end
  end.

Fixpoint untokens (l : list token) : string :=
  match l with
  | [] => EmptyString
  | t :: l' => String (tok_first t) (tok_rest t +:+ untokens l')
  end.

(** The tokens left once the white space at the front is gone. *)
Fixpoint drop_white (l : list token) : list token :=
  match l with
  | [] => []
  | t :: l' => if tok_white t then drop_white l' else l
  end.

(** [String.prototype.trim]: the string without the white space at its
    start and at its end. *)
Definition trim (s : string) : string :=
  untokens (rev (drop_white (rev (drop_white (tokens s))))).

(** [s !== ""]. *)
Definition nonempty_string (s : string) : bool :=
  match s with EmptyString => false | _ => true end.

(** [Array.prototype.splice(start, deleteCount, item)] with one inserted
    item, as the standard defines it: a negative [start] counts from the
    end and is clamped at 0, a [start] past the end is clamped to the
    length, and the delete count is clamped to what is left after the
    start.  The array is changed in place; here the new contents are
    returned. *)
Definition splice {A} (l : list A) (start deleteCount : Z) (item : A)
  : list A :=
  let len := Z.of_nat (length l) in
  let actualStart :=
    if start <? 0 then Z.max (len + start) 0 else Z.min start len in
  let actualDeleteCount :=
    Z.min (Z.max deleteCount 0) (len - actualStart) in
  take (Z.to_nat actualStart) l ++ item ::
  drop (Z.to_nat (actualStart + actualDeleteCount)) l.

(** [Array.prototype.reduce(f, init)]. *)
Definition reduce {A B} (f : B → A → B) (init : B) (l : list A) : B :=
  fold_left f l init.

(** [Array.prototype.every]. *)
Definition every {A} (p : A → bool) (l : list A) : bool := forallb p l.

(** [Array.prototype.flatMap]. *)
Definition flatMap {A B} (f : A → list B) (l : list A) : list B :=
  flat_map f l.

End Js.

(** ** Data model *)

(** Modelled from the spec: the type [QuestionType] of
    [interfaces/question.ts], which is not among the sources; the spec gives
    it as the closed variant
    [{multiple_choice_question, short_answer_question}]. *)
Inductive QuestionType : Set :=
| multiple_choice_question
| short_answer_question.

Definition QuestionType_eqb (a b : QuestionType) : bool :=
  match a, b with
  | multiple_choice_question, multiple_choice_question => true
  | short_answer_question, short_answer_question => true
  | _, _ => false
  end.

(** Modelled from the spec: the interface [Question] of
    [interfaces/question.ts], which is not among the sources; the fields are
    those of section 3 of the spec.  The type is parametric in what the
    [options] field holds: a list of strings under value semantics, a
    reference to an array under reference semantics. *)
Record Question_ (O : Type) : Type := mkQuestion {
  id : Z;
  name : string;
  type : QuestionType;
  body : string;
  expected : string;
  options : O;
  points : Z;
  published : bool
}.

Arguments mkQuestion {O}.
Arguments id {O}.
Arguments name {O}.
Arguments type {O}.
Arguments body {O}.
Arguments expected {O}.
Arguments options {O}.
Arguments points {O}.
Arguments published {O}.

(** Modelled from the spec: the interface [Answer] of
    [interfaces/answer.ts], which is not among the sources. *)
Record Answer : Type := mkAnswer {
  questionId : Z;
  text : string;
  submitted : bool;
  correct : bool
}.

Definition Question_eq_dec (a b : Question_ (list string)) : {a = b} + {a ≠ b}.
Proof.
  repeat decide equality; apply Z.eq_dec.
Defined.

(** Object spread with one overridden field: [{...q, options: o}],
    [{...q, published: b}], and so on. *)
Definition with_options {O O'} (q : Question_ O) (o : O') : Question_ O' :=
  mkQuestion (id q) (name q) (type q) (body q) (expected q) o (points q)
             (published q).

Definition with_published {O} (q : Question_ O) (b : bool) : Question_ O :=
  mkQuestion (id q) (name q) (type q) (body q) (expected q) (options q)
             (points q) b.

Definition with_name {O} (q : Question_ O) (n : string) : Question_ O :=
  mkQuestion (id q) n (type q) (body q) (expected q) (options q) (points q)
             (published q).

Definition with_type {O} (q : Question_ O) (t : QuestionType) : Question_ O :=
  mkQuestion (id q) (name q) t (body q) (expected q) (options q) (points q)
             (published q).

Definition with_id {O} (q : Question_ O) (i : Z) : Question_ O :=
  mkQuestion i (name q) (type q) (body q) (expected q) (options q) (points q)
             (published q).

(** ** Value semantics *)

Module Nested.

Abbreviation Question := (Question_ (list string)).

(** Modelled from the spec: [makeBlankQuestion] of [objects.ts], which is
    not among the sources; it "produces a Question with empty
    body/expected, empty options, zero points, published = false". *)
Definition makeBlankQuestion (i : Z) (n : string) (t : QuestionType)
  : Question :=
  mkQuestion i n t "" "" [] 0 false.

(** [{ ...q, options: [...q.options] }] *)
Definition copy (q : Question) : Question := with_options q (options q).

Definition getPublishedQuestions (questions : list Question)
  : list Question :=
  map copy (List.filter (λ q, published q) questions).

Definition getNonEmptyQuestions (questions : list Question)
  : list Question :=
  List.filter
    (λ q, Js.nonempty_string (Js.trim (body q))
          || (0 <? Z.of_nat (length (options q)))
          || Js.nonempty_string (Js.trim (expected q)))
    questions.

Definition findQuestion (questions : list Question) (i : Z)
  : option Question :=
  match List.find (λ q, id q =? i) questions with
  | None => None
  | Some toFind => Some (copy toFind)
  end.

Definition removeQuestion (questions : list Question) (i : Z)
  : list Question :=
  map copy (List.filter (λ q, negb (id q =? i)) questions).

Definition getNames (questions : list Question) : list string :=
  map (λ q, name q) questions.

Definition sumPoints (questions : list Question) : Z :=
  Js.reduce (λ total q, total + points q) 0 questions.

Definition sumPublishedPoints (questions : list Question) : Z :=
  Js.reduce
    (λ total q, if published q then total + points q else total)
    0 questions.

Definition toCSV (questions : list Question) : string :=
  let r1 :=
    Js.join "," ["id"; "name"; "options"; "points"; "published"]
    +:+ Js.nl in
  let csv :=
    Js.join Js.nl
      (map Js.Array_toString
         (map (λ q, [ Js.String_number (id q);
                      name q;
                      Js.String_number (Z.of_nat (length (options q)));
                      Js.String_number (points q);
                      Js.String_boolean (published q) ])
              questions)) in
  r1 +:+ csv.

Definition makeAnswers (questions : list Question) : list Answer :=
  map (λ q, {| correct := false; submitted := false;
               questionId := id q; text := "" |})
      questions.

Definition publishAll (questions : list Question) : list Question :=
  map (λ q, with_published (copy q) true) questions.

Definition sameType (questions : list Question) : bool :=
  Js.every (λ q, QuestionType_eqb (type q) multiple_choice_question)
           questions
  || Js.every (λ q, QuestionType_eqb (type q) short_answer_question)
              questions.

Definition addNewQuestion (questions : list Question) (i : Z)
           (n : string) (t : QuestionType) : list Question :=
  let deepCopy := map copy questions in
  deepCopy ++ [makeBlankQuestion i n t].

Definition renameQuestionById (questions : list Question) (targetId : Z)
           (newName : string) : list Question :=
  map (λ q, if targetId =? id q then with_name (copy q) newName
            else copy q)
      questions.

Definition changeQuestionTypeById (questions : list Question)
           (targetId : Z) (newQuestionType : QuestionType)
  : list Question :=
  map (λ q,
         if targetId =? id q then
           let ret := with_type (copy q) newQuestionType in
           if QuestionType_eqb (type ret) short_answer_question
           then with_options ret []
           else ret
         else copy q)
      questions.

Definition editOption (questions : list Question) (targetId : Z)
           (targetOptionIndex : Z) (newOption : string) : list Question :=
  map (λ q,
         if targetId =? id q then
           let ret := copy q in
           if targetOptionIndex =? -1 then
             with_options ret
               (Js.splice (options ret) (Z.of_nat (length (options ret)))
                          0 newOption)
           else
             with_options ret
               (Js.splice (options ret) targetOptionIndex 1 newOption)
         else copy q)
      questions.

Definition duplicateQuestionInArray (questions : list Question)
           (targetId newId : Z) : list Question :=
  Js.flatMap
    (λ q, if id q =? targetId then
            [ copy q;
              with_name (with_id (copy q) newId) ("Copy of " +:+ name q) ]
          else [ copy q ])
    questions.

End Nested.

(** ** Reference semantics *)

Abbreviation store := (gmap positive (list string)).

Module NestedHeap.

(** An options array is a cell of the store; a [Question] object holds a
    reference to it. *)
Abbreviation loc := positive.
Abbreviation Question := (Question_ positive).

(** Computations that read, allocate and update arrays. *)
Definition M (A : Type) : Type := store → A * store.

Definition ret {A} (a : A) : M A := λ σ, (a, σ).

Definition bind {A B} (m : M A) (k : A → M B) : M B :=
  λ σ, let '(a, σ') := m σ in k a σ'.

Notation "'let*' x := m 'in' k" := (bind m (λ x, k))
  (at level 10, x name, m at level 100, k at level 200).

(** The contents of the array at [l]. *)
Definition read (l : loc) : M (list string) :=
  λ σ, (default [] (σ !! l), σ).

(** A new array: [[]], [[...a]]. *)
Definition alloc (v : list string) : M loc :=
  λ σ, let l := fresh (dom σ) in (l, <[l := v]> σ).

(** In-place update of the array at [l] ([push], [splice], [a[i] = x]). *)
Definition write (l : loc) (v : list string) : M unit :=
  λ σ, (tt, <[l := v]> σ).

(** [Array.prototype.map] with an effectful callback, left to right. *)
Fixpoint mapM {A B} (f : A → M B) (l : list A) : M (list B) :=
  match l with
  | [] => ret []
  | a :: l' =>
      let* b := f a in
      let* bs := mapM f l' in
      ret (b :: bs)
  end.

(** [Array.prototype.filter]: the elements that pass are handed back as
    they are. *)
Fixpoint filterM {A} (p : A → M bool) (l : list A) : M (list A) :=
  match l with
  | [] => ret []
  | a :: l' =>
      let* keep := p a in
      let* rest := filterM p l' in
      ret (if keep then a :: rest else rest)
  end.

(** [Array.prototype.flatMap]. *)
Fixpoint flatMapM {A B} (f : A → M (list B)) (l : list A) : M (list B) :=
  match l with
  | [] => ret []
  | a :: l' =>
      let* bs := f a in
      let* rest := flatMapM f l' in
      ret (bs ++ rest)
  end.

(** [[...a]] *)
Definition spread (a : loc) : M loc :=
  let* v := read a in alloc v.

(** [{ ...q, options: [...q.options] }] *)
Definition copy (q : Question) : M Question :=
  let* o := spread (options q) in
  ret (with_options q o).

(** Modelled from the spec: [makeBlankQuestion] of [objects.ts], which is
    not among the sources; the blank question gets an empty options array
    of its own. *)
Definition makeBlankQuestion (i : Z) (n : string) (t : QuestionType)
  : M Question :=
  let* o := alloc [] in
  ret (mkQuestion i n t "" "" o 0 false).

Definition getPublishedQuestions (questions : list Question)
  : M (list Question) :=
  let* kept := filterM (λ q, ret (published q)) questions in
  mapM copy kept.

Definition getNonEmptyQuestions (questions : list Question)
  : M (list Question) :=
  filterM
    (λ q, let* opts := read (options q) in
          ret (Js.nonempty_string (Js.trim (body q))
               || (0 <? Z.of_nat (length opts))
               || Js.nonempty_string (Js.trim (expected q))))
    questions.

Definition findQuestion (questions : list Question) (i : Z)
  : M (option Question) :=
  match List.find (λ q, id q =? i) questions with
  | None => ret None
  | Some toFind => let* c := copy toFind in ret (Some c)
  end.

Definition removeQuestion (questions : list Question) (i : Z)
  : M (list Question) :=
  let* kept := filterM (λ q, ret (negb (id q =? i))) questions in
  mapM copy kept.

Definition publishAll (questions : list Question) : M (list Question) :=
  mapM (λ q, let* c := copy q in ret (with_published c true)) questions.

Definition addNewQuestion (questions : list Question) (i : Z)
           (n : string) (t : QuestionType) : M (list Question) :=
  let* deepCopy := mapM copy questions in
  let* blank := makeBlankQuestion i n t in
  ret (deepCopy ++ [blank]).

Definition renameQuestionById (questions : list Question) (targetId : Z)
           (newName : string) : M (list Question) :=
  mapM (λ q, if targetId =? id q then
               let* c := copy q in ret (with_name c newName)
             else copy q)
       questions.

Definition changeQuestionTypeById (questions : list Question)
           (targetId : Z) (newQuestionType : QuestionType)
  : M (list Question) :=
  mapM (λ q,
          if targetId =? id q then
            let* c := copy q in
            let ret_ := with_type c newQuestionType in
            if QuestionType_eqb (type ret_) short_answer_question then
              let* o := alloc [] in ret (with_options ret_ o)
            else ret ret_
          else copy q)
       questions.

Definition editOption (questions : list Question) (targetId : Z)
           (targetOptionIndex : Z) (newOption : string)
  : M (list Question) :=
  mapM (λ q,
          if targetId =? id q then
            let* ret_ := copy q in
            let* opts := read (options ret_) in
            let* _ :=
              (if targetOptionIndex =? -1 then
                 write (options ret_)
                   (Js.splice opts (Z.of_nat (length opts)) 0 newOption)
               else
                 write (options ret_)
                   (Js.splice opts targetOptionIndex 1 newOption)) in
            ret ret_
          else copy q)
       questions.

Definition duplicateQuestionInArray (questions : list Question)
           (targetId newId : Z) : M (list Question) :=
  flatMapM
    (λ q, if id q =? targetId then
            let* c1 := copy q in
            let* c2 := copy q in
            ret [ c1;
                  with_name (with_id c2 newId) ("Copy of " +:+ name q) ]
          else
            let* c := copy q in ret [ c ])
    questions.

(** What a holder of the object [q] sees in the store [σ]. *)
Definition deref (σ : store) (q : Question) : Nested.Question :=
  with_options q (default [] (σ !! options q)).

(** The objects [qs] are well formed in [σ]: their options arrays
    exist. *)
Definition wf (σ : store) (qs : list Question) : Prop :=
  Forall (λ q, options q ∈ dom σ) qs.

(** The objects [out] own their options: going from [σ] to [σ'] nothing
    that was in [σ] has changed, the options array of every object of
    [out] was allocated on the way, and no two of them share one. *)
Definition own_options (σ σ' : store) (out : list Question) : Prop :=
  σ ⊆ σ'
  ∧ Forall (λ q, (options q ∉ dom σ) ∧ options q ∈ dom σ') out
  ∧ NoDup (options <$> out).

(** The callback [f] of a [flatMap] does, on objects, what [g] does on
    values, and the objects it returns own their options. *)
Definition step_spec (f : Question → M (list Question))
           (g : Nested.Question → list Nested.Question) : Prop :=
  ∀ q σ, options q ∈ dom σ →
    own_options σ (f q σ).2 (f q σ).1
    ∧ deref (f q σ).2 <$> (f q σ).1 = g (deref σ q).

(** The same for a function of the library: called on well-formed
    objects it returns objects that own their options, and what it
    returns reads as the result of [g] on what the input read as. *)
Definition call_spec (f : list Question → M (list Question))
           (g : list Nested.Question → list Nested.Question) : Prop :=
  ∀ qs σ, wf σ qs →
    own_options σ (f qs σ).2 (f qs σ).1
    ∧ deref (f qs σ).2 <$> (f qs σ).1 = g (deref σ <$> qs).

(** No update of the options array of an object of [out], made in the
    store [σ'] that the call left, changes what the holder of an input
    object sees. *)
Definition input_unaffected (qs : list Question) (σ : store)
           (out : list Question) (σ' : store) : Prop :=
  ∀ o v q, o ∈ out → q ∈ qs →
    deref ((write (options o) v σ').2) q = deref σ q.

End NestedHeap.

(** ** The statements of the specification, in its own words *)

Module Spec.




(** The code points that [trim] removes: the WhiteSpace and LineTerminator
    characters of ECMAScript (TAB, LF, VT, FF, CR, SPACE, U+00A0, U+1680,
    U+2000 to U+200A, U+2028, U+2029, U+202F, U+205F, U+3000, U+FEFF). *)
Definition white_space_code_points : list N :=
  [9; 10; 11; 12; 13; 32; 160; 5760;
   8192; 8193; 8194; 8195; 8196; 8197; 8198; 8199; 8200; 8201; 8202;
   8232; 8233; 8239; 8287; 12288; 65279]%N.

(** The UTF-8 encoding of a code point. *)
Definition utf8 (p : N) : string :=
  (if p <? 128 then
     String (ascii_of_N p) EmptyString
   else if p <? 2048 then
     String (ascii_of_N (192 + p / 64))
       (String (ascii_of_N (128 + p mod 64)) EmptyString)
   else if p <? 65536 then
     String (ascii_of_N (224 + p / 4096))
       (String (ascii_of_N (128 + (p / 64) mod 64))
          (String (ascii_of_N (128 + p mod 64)) EmptyString))
   else
     String (ascii_of_N (240 + p / 262144))
       (String (ascii_of_N (128 + (p / 4096) mod 64))
          (String (ascii_of_N (128 + (p / 64) mod 64))
             (String (ascii_of_N (128 + p mod 64)) EmptyString))))%N.

(** A blank string: nothing but white-space characters. *)
Inductive blank : string → Prop :=
| blank_empty : blank EmptyString
| blank_white (p : N) (s : string) :
    In p white_space_code_points → blank s → blank (utf8 p +:+ s).

(** The duplicate of [q]: it differs in [id] and [name] only. *)
Definition duplicate (q : Nested.Question) (newId : Z) : Nested.Question :=
  mkQuestion newId ("Copy of " +:+ name q) (type q) (body q) (expected q)
             (options q) (points q) (published q).

End Spec.

(** * Properties *)

(** ** Strings and [join] *)

Section Strings.

Lemma append_cons (c : ascii) (s t : string) :
  String c s +:+ t = String c (s +:+ t).
Proof. reflexivity. Qed.


Lemma append_empty_r (s : string) : s +:+ "" = s.
Proof.
  induction s as [|c s IH]; [reflexivity|].
  rewrite append_cons, IH. reflexivity.
Qed.



Lemma join_nil (sep : string) : Js.join sep [] = "".
Proof. reflexivity. Qed.




End Strings.

(** ** Copies under value semantics *)

Section ValueSemantics.

Implicit Types (q : Nested.Question) (qs : list Nested.Question).

Lemma copy_id q : Nested.copy q = q.
Proof. destruct q; reflexivity. Qed.

Lemma map_copy_id qs : map Nested.copy qs = qs.
Proof.
  induction qs as [|q qs IH]; simpl; [reflexivity|].
  rewrite copy_id, IH. reflexivity.
Qed.






(** *** [getPublishedQuestions] *)

Lemma filter_sublist_of (p : Nested.Question → bool) qs :
  List.filter p qs `sublist_of` qs.
Proof.
  induction qs as [|q qs IH]; simpl; [constructor|].
  destruct (p q); [apply sublist_skip | apply sublist_cons]; exact IH.
Qed.

(** C6.  [getPublishedQuestions qs] is a subsequence of [qs], every
    element of it is published, it holds exactly the published entries of
    [qs] (nothing else, and each of them as often as [qs] does), and it is
    no longer than [qs]. *)
Theorem getPublishedQuestions_spec qs :
  Nested.getPublishedQuestions qs `sublist_of` qs
  ∧ Forall (λ q, published q = true) (Nested.getPublishedQuestions qs)
  ∧ (∀ q, q ∈ Nested.getPublishedQuestions qs
          ↔ q ∈ qs ∧ published q = true)
  ∧ (∀ q, published q = true →
          count_occ Question_eq_dec (Nested.getPublishedQuestions qs) q
          = count_occ Question_eq_dec qs q)
  ∧ (length (Nested.getPublishedQuestions qs) ≤ length qs)%nat.
Proof.
  unfold Nested.getPublishedQuestions. rewrite map_copy_id.
  split; [apply filter_sublist_of|].
  split.
  { apply Forall_forall. intros q Hq. apply list_elem_of_In in Hq.
    apply filter_In in Hq. tauto. }
  split.
  { intros q. rewrite !list_elem_of_In, filter_In.
    destruct (published q); intuition congruence. }
  split.
  { intros q Hq. induction qs as [|x qs IH]; simpl; [reflexivity|].
    destruct (published x) eqn:Hx; simpl.
    - rewrite IH. reflexivity.
    - destruct (Question_eq_dec x q) as [->|_]; [congruence|exact IH]. }
  apply sublist_length, filter_sublist_of.
Qed.

Lemma getPublishedQuestions_spec_witness :
  published (mkQuestion 2 "B" short_answer_question "" "" ([] : list string)
                        3 true) = true
  ∧ count_occ Question_eq_dec
      (Nested.getPublishedQuestions
         [mkQuestion 1 "A" multiple_choice_question "" "" ["x"] 2 false;
          mkQuestion 2 "B" short_answer_question "" "" [] 3 true;
          mkQuestion 2 "B" short_answer_question "" "" [] 3 true])
      (mkQuestion 2 "B" short_answer_question "" "" [] 3 true)
    = count_occ Question_eq_dec
        [mkQuestion 1 "A" multiple_choice_question "" "" ["x"] 2 false;
         mkQuestion 2 "B" short_answer_question "" "" [] 3 true;
         mkQuestion 2 "B" short_answer_question "" "" [] 3 true]
        (mkQuestion 2 "B" short_answer_question "" "" [] 3 true).
Proof.
  split; [reflexivity|].
  apply (proj1 (proj2 (proj2 (proj2 (getPublishedQuestions_spec _))))).
  reflexivity.
Defined.

(** *** [sameType] *)

Lemma QuestionType_eqb_eq (a b : QuestionType) :
  QuestionType_eqb a b = true ↔ a = b.
Proof. destruct a, b; simpl; split; congruence. Qed.

Lemma every_Forall (t : QuestionType) qs :
  Js.every (λ q, QuestionType_eqb (type q) t) qs = true
  ↔ Forall (λ q, type q = t) qs.
Proof.
  unfold Js.every. rewrite forallb_forall, Forall_forall.
  split; intros H q Hq.
  - apply QuestionType_eqb_eq, H, list_elem_of_In, Hq.
  - apply QuestionType_eqb_eq, H, list_elem_of_In, Hq.
Qed.

(** C7.  [sameType qs] is true exactly when all entries are
    [multiple_choice_question] or all entries are
    [short_answer_question]; it is true for the empty sequence. *)
Theorem sameType_spec :
  (∀ qs, Nested.sameType qs = true
         ↔ Forall (λ q, type q = multiple_choice_question) qs
           ∨ Forall (λ q, type q = short_answer_question) qs)
  ∧ Nested.sameType [] = true.
Proof.
  split; [|reflexivity]. intros qs. unfold Nested.sameType.
  rewrite orb_true_iff, !every_Forall. reflexivity.
Qed.

(** *** [sumPoints] and [sumPublishedPoints] *)

Lemma sum_published_le_from qs :
  Forall (λ q, 0 ≤ points q) qs →
  ∀ a b, a ≤ b →
    fold_left (λ total q, if published q then total + points q else total)
              qs a
    ≤ fold_left (λ total q, total + points q) qs b.
Proof.
  induction 1 as [|q qs Hq _ IH]; intros a b Hab; simpl; [exact Hab|].
  apply IH. destruct (published q); lia.
Qed.

(** C8.  When no entry has negative points, the sum of all points is at
    least the sum of the published points; both sums are 0 for the empty
    sequence. *)
Theorem sumPoints_ge_sumPublishedPoints qs :
  Forall (λ q, 0 ≤ points q) qs →
  Nested.sumPoints qs >= Nested.sumPublishedPoints qs
  ∧ Nested.sumPoints [] = 0
  ∧ Nested.sumPublishedPoints [] = 0.
Proof.
  intros Hqs. split; [|split; reflexivity].
  unfold Nested.sumPoints, Nested.sumPublishedPoints, Js.reduce.
  apply Z.le_ge, sum_published_le_from; [exact Hqs|lia].
Qed.

Lemma sumPoints_ge_sumPublishedPoints_witness :
  Forall (λ q : Nested.Question, 0 ≤ points q)
         [mkQuestion 1 "A" multiple_choice_question "" "" [] 2 false;
          mkQuestion 2 "B" short_answer_question "" "" [] 3 true]
  ∧ Nested.sumPoints
      [mkQuestion 1 "A" multiple_choice_question "" "" [] 2 false;
       mkQuestion 2 "B" short_answer_question "" "" [] 3 true] = 5
  ∧ Nested.sumPublishedPoints
      [mkQuestion 1 "A" multiple_choice_question "" "" [] 2 false;
       mkQuestion 2 "B" short_answer_question "" "" [] 3 true] = 3
  ∧ Nested.sumPoints
      [mkQuestion 1 "A" multiple_choice_question "" "" [] 2 false;
       mkQuestion 2 "B" short_answer_question "" "" [] 3 true]
    >= Nested.sumPublishedPoints
         [mkQuestion 1 "A" multiple_choice_question "" "" [] 2 false;
          mkQuestion 2 "B" short_answer_question "" "" [] 3 true].
Proof.
  assert (H : Forall (λ q : Nested.Question, 0 ≤ points q)
                [mkQuestion 1 "A" multiple_choice_question "" "" [] 2 false;
                 mkQuestion 2 "B" short_answer_question "" "" [] 3 true]).
  { repeat constructor; simpl; lia. }
  split; [exact H|]. split; [reflexivity|]. split; [reflexivity|].
  exact (proj1 (sumPoints_ge_sumPublishedPoints _ H)).
Defined.

(** *** [publishAll] *)

(** C9.  [publishAll] is idempotent: publishing twice gives the sequence
    that publishing once gives, entry for entry and field for field. *)
Theorem publishAll_idempotent qs :
  Nested.publishAll (Nested.publishAll qs) = Nested.publishAll qs
  ∧ length (Nested.publishAll qs) = length qs
  ∧ ∀ i q, Nested.publishAll qs !! i = Some q →
      Nested.publishAll (Nested.publishAll qs) !! i = Some q.
Proof.
  assert (H : Nested.publishAll (Nested.publishAll qs)
              = Nested.publishAll qs).
  { unfold Nested.publishAll. rewrite map_map. apply map_ext.
    intros q. destruct q; reflexivity. }
  split; [exact H|]. split.
  - unfold Nested.publishAll. apply length_map.
  - intros i q Hq. rewrite H. exact Hq.
Qed.

Lemma publishAll_idempotent_witness :
  Nested.publishAll
    [mkQuestion 1 "A" multiple_choice_question "" "" ["x"] 2 false] !! 0%nat
  = Some (mkQuestion 1 "A" multiple_choice_question "" "" ["x"] 2 true)
  ∧ Nested.publishAll
      (Nested.publishAll
         [mkQuestion 1 "A" multiple_choice_question "" "" ["x"] 2 false])
    !! 0%nat
    = Some (mkQuestion 1 "A" multiple_choice_question "" "" ["x"] 2 true).
Proof.
  split; [reflexivity|].
  apply (proj2 (proj2 (publishAll_idempotent _))). reflexivity.
Defined.

(** *** [findQuestion] *)


Lemma find_absent (i : Z) qs :
  List.find (λ x, id x =? i) qs = None ↔ Forall (λ x, id x ≠ i) qs.
Proof.
  induction qs as [|x qs IH]; simpl.
  - split; [constructor|reflexivity].
  - destruct (Z.eqb_spec (id x) i) as [Hx|Hx].
    + split; [discriminate|]. intros H.
      apply Forall_cons in H as [H _]. contradiction.
    + rewrite IH. split; [constructor; assumption|].
      intros H. apply Forall_cons in H as [_ H]. exact H.
Qed.



(** *** [changeQuestionTypeById] *)

Lemma lookup_map {A B} (f : A → B) (l : list A) (i : nat) :
  map f l !! i = f <$> l !! i.
Proof.
  revert i. induction l as [|a l IH]; intros [|i]; simpl;
    [reflexivity..|apply IH].
Qed.

(** C3.  [changeQuestionTypeById qs targetId newQuestionType] has the
    length and the order of [qs]; an entry whose [id] is [targetId] gets
    the new type, an empty [options] when the new type is not
    [multiple_choice_question] (its own [options] when it is), and keeps
    all its other fields; an entry with another [id] is unchanged. *)
Theorem changeQuestionTypeById_spec qs (targetId : Z)
        (newQuestionType : QuestionType) :
  length (Nested.changeQuestionTypeById qs targetId newQuestionType)
  = length qs
  ∧ ∀ (i : nat) q, qs !! i = Some q →
      ∃ q', Nested.changeQuestionTypeById qs targetId newQuestionType !! i
            = Some q'
        ∧ (id q = targetId →
             type q' = newQuestionType
             ∧ (newQuestionType ≠ multiple_choice_question
                → options q' = [])
             ∧ (newQuestionType = multiple_choice_question
                → options q' = options q)
             ∧ id q' = id q ∧ name q' = name q ∧ body q' = body q
             ∧ expected q' = expected q ∧ points q' = points q
             ∧ published q' = published q)
        ∧ (id q ≠ targetId → q' = q).
Proof.
  unfold Nested.changeQuestionTypeById. split; [apply length_map|].
  intros i q Hq. rewrite lookup_map, Hq. simpl.
  eexists; split; [reflexivity|].
  destruct (Z.eqb_spec targetId (id q)) as [Heq|Hne].
  - split; [|intros; congruence]. intros _.
    destruct newQuestionType; destruct q; simpl;
      repeat split; congruence.
  - split; [intros; congruence|]. intros _. apply copy_id.
Qed.

Lemma changeQuestionTypeById_spec_witness :
  ∃ q' : Nested.Question,
    Nested.changeQuestionTypeById
      [mkQuestion 1 "A" multiple_choice_question "" "" ["a"; "b"] 2 false]
      1 short_answer_question !! 0%nat = Some q'
    ∧ type q' = short_answer_question ∧ options q' = [] ∧ name q' = "A".
Proof.
  destruct (proj2 (changeQuestionTypeById_spec
                     [mkQuestion 1 "A" multiple_choice_question "" ""
                                 ["a"; "b"] 2 false]
                     1 short_answer_question)
                  0%nat _ eq_refl) as (q' & Hq' & Ht & _).
  exists q'. split; [exact Hq'|].
  destruct (Ht eq_refl) as (H1 & H2 & _ & _ & H3 & _).
  split; [exact H1|]. split; [apply H2; discriminate|exact H3].
Defined.

(** *** [duplicateQuestionInArray] *)

Lemma duplicate_eq q (newId : Z) :
  with_name (with_id (Nested.copy q) newId) ("Copy of " +:+ name q)
  = Spec.duplicate q newId.
Proof. destruct q; reflexivity. Qed.

(** C5.  [duplicateQuestionInArray] passes every entry through in order;
    an entry whose [id] is [targetId] is emitted unchanged and is
    immediately followed by its duplicate, which has [id = newId], the
    name ["Copy of "] followed by the original name, and all other fields
    of the original.  When no entry matches, the output is the input.  The
    one-question sample gives the two questions of the specification. *)
Theorem duplicateQuestionInArray_spec (targetId newId : Z) :
  (∀ l1 q l2,
     Nested.duplicateQuestionInArray (l1 ++ q :: l2) targetId newId
     = Nested.duplicateQuestionInArray l1 targetId newId
       ++ (if decide (id q = targetId)
           then [q; Spec.duplicate q newId] else [q])
       ++ Nested.duplicateQuestionInArray l2 targetId newId)
  ∧ Nested.duplicateQuestionInArray [] targetId newId = []
  ∧ (∀ qs, Forall (λ q, id q ≠ targetId) qs →
           Nested.duplicateQuestionInArray qs targetId newId = qs)
  ∧ (∀ q, id (Spec.duplicate q newId) = newId
          ∧ name (Spec.duplicate q newId) = "Copy of " +:+ name q
          ∧ type (Spec.duplicate q newId) = type q
          ∧ body (Spec.duplicate q newId) = body q
          ∧ expected (Spec.duplicate q newId) = expected q
          ∧ options (Spec.duplicate q newId) = options q
          ∧ points (Spec.duplicate q newId) = points q
          ∧ published (Spec.duplicate q newId) = published q)
  ∧ (∀ t b e o p pub,
       Nested.duplicateQuestionInArray
         [mkQuestion 1 "Q" t b e o p pub] 1 99
       = [mkQuestion 1 "Q" t b e o p pub;
          mkQuestion 99 "Copy of Q" t b e o p pub]).
Proof.
  assert (Hstep : ∀ q,
    (if id q =? targetId
     then [Nested.copy q;
           with_name (with_id (Nested.copy q) newId)
                     ("Copy of " +:+ name q)]
     else [Nested.copy q])
    = if decide (id q = targetId)
      then [q; Spec.duplicate q newId] else [q]).
  { intros q. rewrite duplicate_eq, copy_id.
    destruct (Z.eqb_spec (id q) targetId), (decide (id q = targetId));
      congruence. }
  split.
  { intros l1 q l2. unfold Nested.duplicateQuestionInArray, Js.flatMap.
    rewrite flat_map_app. simpl. rewrite Hstep. reflexivity. }
  split; [reflexivity|]. split.
  { intros qs Hqs. unfold Nested.duplicateQuestionInArray, Js.flatMap.
    induction Hqs as [|q qs Hq _ IH]; simpl; [reflexivity|].
    rewrite Hstep, IH. destruct (decide (id q = targetId));
      [contradiction|reflexivity]. }
  split; [intros q; repeat split|].
  intros. reflexivity.
Qed.

Lemma duplicateQuestionInArray_spec_witness :
  Forall (λ q : Nested.Question, id q ≠ 2)
         [mkQuestion 1 "Q" multiple_choice_question "" "" ["a"] 2 false]
  ∧ Nested.duplicateQuestionInArray
      [mkQuestion 1 "Q" multiple_choice_question "" "" ["a"] 2 false] 2 99
    = [mkQuestion 1 "Q" multiple_choice_question "" "" ["a"] 2 false].
Proof.
  assert (H : Forall (λ q : Nested.Question, id q ≠ 2)
                [mkQuestion 1 "Q" multiple_choice_question "" "" ["a"] 2
                            false]).
  { repeat constructor. simpl. lia. }
  split; [exact H|].
  exact (proj1 (proj2 (proj2 (duplicateQuestionInArray_spec 2 99))) _ H).
Defined.

(** *** [splice] and [editOption] *)

Lemma splice_at_length {A} (l : list A) (x : A) :
  Js.splice l (Z.of_nat (length l)) 0 x = l ++ [x].
Proof.
  unfold Js.splice. cbv zeta.
  destruct (Z.ltb_spec (Z.of_nat (length l)) 0) as [H|H]; [lia|].
  rewrite Z.min_id, Z.sub_diag, Z.add_0_r, Nat2Z.id.
  rewrite firstn_all, drop_all. reflexivity.
Qed.

Lemma splice_past_end {A} (l : list A) (start : Z) (x : A) :
  Z.of_nat (length l) ≤ start → Js.splice l start 1 x = l ++ [x].
Proof.
  intros Hge. unfold Js.splice. cbv zeta.
  destruct (Z.ltb_spec start 0) as [H|H]; [lia|].
  rewrite (Z.min_r start) by lia.
  rewrite Z.sub_diag, (Z.min_r _ 0) by lia.
  rewrite Z.add_0_r, Nat2Z.id, firstn_all, drop_all. reflexivity.
Qed.

Lemma splice_in_range {A} (l : list A) (start : Z) (x : A) :
  0 ≤ start < Z.of_nat (length l) →
  Js.splice l start 1 x = <[Z.to_nat start := x]> l.
Proof.
  intros Hr. unfold Js.splice. cbv zeta.
  destruct (Z.ltb_spec start 0) as [H|H]; [lia|].
  rewrite (Z.min_l start) by lia.
  rewrite (Z.max_l 1 0), (Z.min_l 1) by lia.
  rewrite insert_take_drop by lia.
  replace (Z.to_nat (start + 1)) with (S (Z.to_nat start)) by lia.
  reflexivity.
Qed.

Lemma splice_negative {A} (l : list A) (start : Z) (x : A) :
  start < 0 → l ≠ [] →
  Js.splice l start 1 x
  = <[Z.to_nat (Z.max (Z.of_nat (length l) + start) 0) := x]> l.
Proof.
  intros Hneg Hne. unfold Js.splice. cbv zeta.
  assert (0 < Z.of_nat (length l)) by (destruct l; [congruence|simpl; lia]).
  destruct (Z.ltb_spec start 0) as [H'|H']; [|lia].
  set (p := Z.max (Z.of_nat (length l) + start) 0).
  assert (0 ≤ p < Z.of_nat (length l)) by (unfold p; lia).
  rewrite (Z.max_l 1 0), (Z.min_l 1) by lia.
  rewrite insert_take_drop by lia.
  replace (Z.to_nat (p + 1)) with (S (Z.to_nat p)) by lia.
  reflexivity.
Qed.

Lemma splice_negative_empty {A} (start : Z) (x : A) :
  start < 0 → Js.splice [] start 1 x = [x].
Proof.
  intros Hneg. unfold Js.splice. cbv zeta.
  destruct (Z.ltb_spec start 0) as [H'|H']; [|lia].
  simpl length. rewrite take_nil, drop_nil. reflexivity.
Qed.

(** C10, as stated, fails where the target entry has no options.  With
    index [-2] and [n = 0] the position [max (n - 2) 0] is 0, where the
    options hold no element; nothing is replaced: [splice] deletes nothing
    and inserts the new option, so the options grow from none to one. *)
Lemma editOption_negative_index_on_empty_options :
  Nested.editOption
    [mkQuestion 1 "Q" multiple_choice_question "" "" [] 0 false] 1 (-2) "X"
  = [mkQuestion 1 "Q" multiple_choice_question "" "" ["X"] 0 false]
  ∧ (@nil string) !! Z.to_nat (Z.max (Z.of_nat (length (@nil string)) + -2) 0)
    = None
  ∧ Nested.editOption
      [mkQuestion 1 "Q" multiple_choice_question "" "" [] 0 false] 1 (-2)
      "X"
    ≠ [mkQuestion 1 "Q" multiple_choice_question "" ""
         (<[Z.to_nat (Z.max (Z.of_nat (length (@nil string)) + -2) 0)
            := "X"]> [])
         0 false]
  ∧ ¬ (∀ (q : Nested.Question) (k : Z) (x : string),
         k < 0 → k ≠ -1 →
         ∃ q', Nested.editOption [q] (id q) k x = [q']
               ∧ length (options q') = length (options q)).
Proof.
  split; [reflexivity|]. split; [reflexivity|]. split; [discriminate|].
  intros H.
  destruct (H (mkQuestion 1 "Q" multiple_choice_question "" "" [] 0 false)
              (-2) "X") as (q' & Hq' & Hlen); [lia..|].
  injection Hq' as <-. discriminate Hlen.
Qed.

(** C10, amended.  [editOption] is total over every integer
    [targetOptionIndex]; the result has the length and order of the input
    and entries with another [id] are unchanged.  On a target entry whose
    [options] has length [n]: the index [-1] and every index [>= n] append
    [newOption] at the end; an index [0 <= k < n] replaces the element at
    [k]; a negative index [k] other than [-1] replaces the element at
    position [max (n + k) 0] when [n >= 1], and gives the one-element
    options [[newOption]] when [n = 0]. *)
Theorem editOption_spec qs (targetId targetOptionIndex : Z)
        (newOption : string) :
  length (Nested.editOption qs targetId targetOptionIndex newOption)
  = length qs
  ∧ ∀ (i : nat) q, qs !! i = Some q →
      ∃ opts,
        Nested.editOption qs targetId targetOptionIndex newOption !! i
        = Some (with_options q opts)
        ∧ (id q ≠ targetId → opts = options q)
        ∧ (id q = targetId →
           let n := Z.of_nat (length (options q)) in
           (targetOptionIndex = -1 ∨ n ≤ targetOptionIndex
            → opts = options q ++ [newOption])
           ∧ (0 ≤ targetOptionIndex < n
              → opts = <[Z.to_nat targetOptionIndex := newOption]>
                         (options q))
           ∧ (targetOptionIndex < -1 → 1 ≤ n
              → opts = <[Z.to_nat (Z.max (n + targetOptionIndex) 0)
                         := newOption]> (options q))
           ∧ (targetOptionIndex < -1 → n = 0 → opts = [newOption])).
Proof.
  unfold Nested.editOption. split; [apply length_map|].
  intros i q Hq. rewrite lookup_map, Hq. simpl.
  destruct (Z.eqb_spec targetId (id q)) as [Heq|Hne].
  - rewrite copy_id.
    destruct (Z.eqb_spec targetOptionIndex (-1)) as [Hm|Hm].
    + eexists; split; [reflexivity|].
      split; [intros; congruence|]. intros _. cbv zeta.
      rewrite splice_at_length.
      repeat split; intros; try reflexivity; lia.
    + eexists; split; [reflexivity|].
      split; [intros; congruence|]. intros _. cbv zeta.
      split; [intros [?|?]; [lia|apply splice_past_end; assumption]|].
      split; [apply splice_in_range|].
      split.
      * intros Hk Hn. apply splice_negative; [lia|].
        destruct (options q); [simpl in Hn; lia|congruence].
      * intros Hk Hn. destruct (options q); [|simpl in Hn; lia].
        apply splice_negative_empty. lia.
  - exists (options q). rewrite copy_id.
    split; [destruct q; reflexivity|].
    split; [reflexivity|]. intros; congruence.
Qed.

Lemma editOption_spec_witness :
  ∃ opts,
    Nested.editOption
      [mkQuestion 1 "Q" multiple_choice_question "" "" ["a"; "b"; "c"] 2
                  false] 1 (-2) "X" !! 0%nat
    = Some (mkQuestion 1 "Q" multiple_choice_question "" "" opts 2 false)
    ∧ opts = ["a"; "X"; "c"].
Proof.
  destruct (proj2 (editOption_spec
                     [mkQuestion 1 "Q" multiple_choice_question "" ""
                                 ["a"; "b"; "c"] 2 false] 1 (-2) "X")
                  0%nat _ eq_refl) as (opts & Hl & _ & Ht).
  exists opts. split; [exact Hl|].
  destruct (Ht eq_refl) as (_ & _ & Hneg & _).
  apply Hneg; simpl; lia.
Defined.

(** The two calls of the specification's example: index [-1] appends and
    index [0] replaces the first option. *)
Example editOption_examples (t : QuestionType) (b e n : string)
        (p : Z) (pub : bool) :
  Nested.editOption [mkQuestion 2 n t b e ["a"; "b"] p pub] 2 (-1) "X"
  = [mkQuestion 2 n t b e ["a"; "b"; "X"] p pub]
  ∧ Nested.editOption [mkQuestion 2 n t b e ["a"; "b"] p pub] 2 0 "X"
    = [mkQuestion 2 n t b e ["X"; "b"] p pub].
Proof. split; reflexivity. Qed.

End ValueSemantics.

(** ** Reference semantics: who owns the options arrays *)

Section ReferenceSemantics.

Import NestedHeap.

Implicit Types (σ : store) (q : Question_ positive)
         (qs out : list (Question_ positive)).

Ltac run :=
  unfold NestedHeap.copy, spread, makeBlankQuestion, bind, ret, read,
    alloc, write; simpl.

Lemma fresh_lookup σ : σ !! fresh (dom σ) = None.
Proof. apply not_elem_of_dom, is_fresh. Qed.

Lemma deref_weaken σ σ' q :
  σ ⊆ σ' → options q ∈ dom σ → deref σ' q = deref σ q.
Proof.
  intros Hsub [v Hv]%elem_of_dom. unfold deref.
  rewrite (lookup_weaken _ _ _ _ Hv Hsub), Hv. reflexivity.
Qed.

Lemma deref_weaken_list σ σ' qs :
  σ ⊆ σ' → wf σ qs → deref σ' <$> qs = deref σ <$> qs.
Proof.
  intros Hsub Hwf. induction Hwf as [|q qs Hq _ IH]; [reflexivity|].
  rewrite !fmap_cons, IH, (deref_weaken σ σ') by assumption. reflexivity.
Qed.

Lemma wf_weaken σ σ' qs : σ ⊆ σ' → wf σ qs → wf σ' qs.
Proof.
  intros Hsub%subseteq_dom Hwf. unfold wf in *.
  eapply Forall_impl; [exact Hwf|]. intros q Hq. set_solver.
Qed.

Lemma own_options_nil σ : own_options σ σ [].
Proof. repeat split; [reflexivity|constructor|constructor]. Qed.

Lemma own_options_wf σ σ' out : own_options σ σ' out → wf σ' out.
Proof.
  intros (_ & H & _). unfold wf.
  eapply Forall_impl; [exact H|]. simpl. tauto.
Qed.

(** Two allocation phases, one after the other. *)
Lemma own_options_app σ σ1 σ2 out1 out2 :
  own_options σ σ1 out1 → own_options σ1 σ2 out2 →
  own_options σ σ2 (out1 ++ out2).
Proof.
  intros (Hs1 & Hf1 & Hn1) (Hs2 & Hf2 & Hn2).
  pose proof (subseteq_dom _ _ Hs1) as Hd1.
  pose proof (subseteq_dom _ _ Hs2) as Hd2.
  split; [etrans; eassumption|]. split.
  - apply Forall_app. split.
    + eapply Forall_impl; [exact Hf1|]. intros q [? ?]. set_solver.
    + eapply Forall_impl; [exact Hf2|]. intros q [? ?]. set_solver.
  - rewrite fmap_app. apply NoDup_app. split; [exact Hn1|].
    split; [|exact Hn2].
    intros l (q1 & -> & Hq1)%list_elem_of_fmap
             (q2 & Heq & Hq2)%list_elem_of_fmap.
    rewrite Forall_forall in Hf1, Hf2.
    destruct (Hf1 _ Hq1) as [_ Hin], (Hf2 _ Hq2) as [Hout _].
    rewrite Heq in Hin. contradiction.
Qed.

(** Owned options cannot be reached from the input: updating one leaves
    every object of the input as it was. *)
Lemma own_options_unaffected qs σ out σ' :
  wf σ qs → own_options σ σ' out → input_unaffected qs σ out σ'.
Proof.
  intros Hwf (Hsub & Hf & _) o v q Ho Hq.
  rewrite Forall_forall in Hf. destruct (Hf _ Ho) as [Hfresh _].
  unfold wf in Hwf. rewrite Forall_forall in Hwf.
  specialize (Hwf _ Hq). unfold write. simpl.
  rewrite <- (deref_weaken σ σ' q Hsub Hwf). unfold deref.
  rewrite lookup_insert_ne; [reflexivity|].
  intros Heq. rewrite Heq in Hfresh. contradiction.
Qed.

(** *** The copy [{ ...q, options: [...q.options] }] *)

Lemma copy_own σ q :
  own_options σ (NestedHeap.copy q σ).2 [(NestedHeap.copy q σ).1].
Proof.
  run. split; [apply insert_subseteq, fresh_lookup|]. split.
  - constructor; [|constructor]. simpl. split; [apply is_fresh|].
    rewrite dom_insert_L. set_solver.
  - apply NoDup_singleton.
Qed.

Lemma copy_deref σ q :
  deref (NestedHeap.copy q σ).2 (NestedHeap.copy q σ).1 = deref σ q.
Proof. run. unfold deref. simpl. rewrite lookup_insert_eq. reflexivity. Qed.

(** *** The array methods *)

Lemma flatMapM_spec f g : step_spec f g → call_spec (flatMapM f) (flat_map g).
Proof.
  intros Hf qs. induction qs as [|q qs IH]; intros σ Hwf.
  - split; [apply own_options_nil|reflexivity].
  - apply Forall_cons in Hwf as [Hq Hwf].
    destruct (Hf q σ Hq) as [Hown1 Hd1]. simpl. unfold bind, ret.
    destruct (f q σ) as [bs σ1]. simpl in Hown1, Hd1.
    pose proof Hown1 as (Hsub1 & _).
    destruct (IH σ1 (wf_weaken _ _ _ Hsub1 Hwf)) as [Hown2 Hd2].
    destruct (flatMapM f qs σ1) as [rest σ2]. simpl in Hown2, Hd2 |- *.
    pose proof Hown2 as (Hsub2 & _).
    split; [eapply own_options_app; eassumption|].
    rewrite fmap_app, Hd2.
    rewrite (deref_weaken_list σ1 σ2 bs Hsub2 (own_options_wf _ _ _ Hown1)).
    rewrite Hd1, (deref_weaken_list σ σ1 qs Hsub1 Hwf). reflexivity.
Qed.

Lemma mapM_flatMapM {A B} (f : A → M B) (l : list A) σ :
  mapM f l σ = flatMapM (λ a, let* b := f a in ret [b]) l σ.
Proof.
  revert σ. induction l as [|a l IH]; intros σ; [reflexivity|].
  simpl. unfold bind, ret. destruct (f a σ) as [b σ1]. rewrite IH.
  destruct (flatMapM _ l σ1). reflexivity.
Qed.

Lemma flat_map_singleton {A B} (g : A → B) (l : list A) :
  flat_map (λ a, [g a]) l = map g l.
Proof. induction l as [|a l IH]; simpl; [|rewrite IH]; reflexivity. Qed.

Lemma mapM_spec (f : Question_ positive → M (Question_ positive))
      (g : Nested.Question → Nested.Question) :
  step_spec (λ q, let* b := f q in ret [b]) (λ v, [g v]) →
  call_spec (mapM f) (map g).
Proof.
  intros Hf qs σ Hwf. rewrite mapM_flatMapM, <- (flat_map_singleton g).
  apply flatMapM_spec; assumption.
Qed.

(** A [filter] whose test does not allocate hands back the very objects
    it was given and leaves the store as it is. *)
Lemma filterM_pure {A} (p : A → bool) (l : list A) σ :
  filterM (λ a, ret (p a)) l σ = (List.filter p l, σ).
Proof.
  induction l as [|a l IH]; [reflexivity|].
  simpl. unfold bind, ret in *. rewrite IH. reflexivity.
Qed.

Lemma filter_deref (p : ∀ O, Question_ O → bool) σ qs :
  (∀ q, p _ (deref σ q) = p _ q) →
  List.filter (p _) (deref σ <$> qs) = deref σ <$> List.filter (p _) qs.
Proof.
  intros Hp. induction qs as [|q qs IH]; [reflexivity|].
  rewrite fmap_cons. simpl. rewrite Hp.
  destruct (p _ q); [rewrite fmap_cons|]; rewrite IH; reflexivity.
Qed.

Lemma filter_wf (p : Question_ positive → bool) σ qs :
  wf σ qs → wf σ (List.filter p qs).
Proof.
  unfold wf. rewrite !Forall_forall. intros H q Hq. apply H.
  apply list_elem_of_In. apply list_elem_of_In, filter_In in Hq. tauto.
Qed.

Lemma copy_step : step_spec (λ q, let* b := NestedHeap.copy q in ret [b])
                            (λ v, [Nested.copy v]).
Proof.
  intros q σ _. split.
  - exact (copy_own σ q).
  - rewrite copy_id. generalize (copy_deref σ q). run. congruence.
Qed.

Lemma mapM_copy_spec : call_spec (mapM NestedHeap.copy) (map Nested.copy).
Proof. apply mapM_spec, copy_step. Qed.

(** *** One freshly allocated array *)

Lemma own_options_fresh σ v q :
  options q = fresh (dom σ) →
  own_options σ (<[fresh (dom σ) := v]> σ) [q].
Proof.
  intros Hq. split; [apply insert_subseteq, fresh_lookup|]. split.
  - constructor; [|constructor]. rewrite Hq. split; [apply is_fresh|].
    rewrite dom_insert_L. set_solver.
  - apply NoDup_singleton.
Qed.

Lemma own_options_mono σ σ1 σ2 out :
  σ ⊆ σ1 → own_options σ1 σ2 out → own_options σ σ2 out.
Proof.
  intros Hsub (Hs & Hf & Hn). pose proof (subseteq_dom _ _ Hsub).
  split; [etrans; eassumption|]. split; [|exact Hn].
  eapply Forall_impl; [exact Hf|]. intros q [? ?]. set_solver.
Qed.

Ltac step_cases :=
  repeat match goal with
         | |- context [if ?b then _ else _] => destruct b eqn:?
         end.

(** *** The functions that copy *)

Lemma getPublishedQuestions_call :
  call_spec NestedHeap.getPublishedQuestions Nested.getPublishedQuestions.
Proof.
  intros qs σ Hwf.
  unfold NestedHeap.getPublishedQuestions, Nested.getPublishedQuestions.
  unfold bind. rewrite !filterM_pure.
  destruct (mapM_copy_spec _ σ (filter_wf (λ q, published q) σ qs Hwf))
    as [Hown Hd].
  split; [exact Hown|]. etrans; [exact Hd|]. f_equal. symmetry.
  apply (filter_deref (λ O x, published x)). reflexivity.
Qed.

Lemma removeQuestion_call (i : Z) :
  call_spec (λ qs, NestedHeap.removeQuestion qs i)
            (λ vs, Nested.removeQuestion vs i).
Proof.
  intros qs σ Hwf.
  unfold NestedHeap.removeQuestion, Nested.removeQuestion.
  unfold bind. rewrite !filterM_pure.
  destruct (mapM_copy_spec _ σ
              (filter_wf (λ q, negb (id q =? i)) σ qs Hwf)) as [Hown Hd].
  split; [exact Hown|]. etrans; [exact Hd|]. f_equal. symmetry.
  apply (filter_deref (λ O x, negb (id x =? i))). reflexivity.
Qed.

Lemma publishAll_call :
  call_spec NestedHeap.publishAll Nested.publishAll.
Proof.
  apply mapM_spec. intros q σ _. run. split.
  - apply own_options_fresh. reflexivity.
  - unfold deref. simpl. rewrite lookup_insert_eq. reflexivity.
Qed.

Lemma renameQuestionById_call (targetId : Z) (newName : string) :
  call_spec (λ qs, NestedHeap.renameQuestionById qs targetId newName)
            (λ vs, Nested.renameQuestionById vs targetId newName).
Proof.
  apply mapM_spec. intros q σ _. simpl. step_cases; run; (split;
    [ apply own_options_fresh; reflexivity
    | unfold deref; simpl; rewrite lookup_insert_eq; reflexivity ]).
Qed.

Lemma changeQuestionTypeById_call (targetId : Z) (t : QuestionType) :
  call_spec (λ qs, NestedHeap.changeQuestionTypeById qs targetId t)
            (λ vs, Nested.changeQuestionTypeById vs targetId t).
Proof.
  apply mapM_spec. intros q σ _. simpl.
  destruct (targetId =? id q); [destruct t|]; run.
  - split; [apply own_options_fresh; reflexivity|].
    unfold deref; simpl; rewrite lookup_insert_eq; reflexivity.
  - split.
    + eapply own_options_mono; [apply insert_subseteq, fresh_lookup|].
      apply own_options_fresh. reflexivity.
    + unfold deref; simpl; rewrite lookup_insert_eq; reflexivity.
  - split; [apply own_options_fresh; reflexivity|].
    unfold deref; simpl; rewrite lookup_insert_eq; reflexivity.
Qed.

Lemma editOption_call (targetId k : Z) (x : string) :
  call_spec (λ qs, NestedHeap.editOption qs targetId k x)
            (λ vs, Nested.editOption vs targetId k x).
Proof.
  apply mapM_spec. intros q σ _. simpl.
  destruct (targetId =? id q); [destruct (k =? -1)|]; run;
    rewrite ?lookup_insert_eq, ?insert_insert_eq; simpl;
    (split;
     [ apply own_options_fresh; reflexivity
     | unfold deref; simpl; rewrite lookup_insert_eq; reflexivity ]).
Qed.

Lemma duplicateQuestionInArray_call (targetId newId : Z) :
  call_spec (λ qs, NestedHeap.duplicateQuestionInArray qs targetId newId)
            (λ vs, Nested.duplicateQuestionInArray vs targetId newId).
Proof.
  apply flatMapM_spec. intros q σ Hq. simpl.
  destruct (id q =? targetId); run.
  - split.
    + apply (own_options_app σ (<[fresh (dom σ) := default [] (σ !! options q)]> σ) _ [_] [_]).
      * apply own_options_fresh. reflexivity.
      * apply own_options_fresh. reflexivity.
    + unfold deref. simpl. rewrite lookup_insert_eq.
      rewrite lookup_insert_ne, lookup_insert_eq.
      * rewrite lookup_insert_ne; [reflexivity|].
        intros Heq. rewrite <- Heq in Hq. exact (is_fresh _ Hq).
      * apply not_eq_sym. intros Heq.
        pose proof (is_fresh (dom (<[fresh (dom σ) := default [] (σ !! options q)]> σ))) as Hf.
        rewrite <- Heq, dom_insert_L in Hf. set_solver.
  - split; [apply own_options_fresh; reflexivity|].
    unfold deref; simpl; rewrite lookup_insert_eq; reflexivity.
Qed.

Lemma addNewQuestion_call (i : Z) (n : string) (t : QuestionType) :
  call_spec (λ qs, NestedHeap.addNewQuestion qs i n t)
            (λ vs, Nested.addNewQuestion vs i n t).
Proof.
  intros qs σ Hwf.
  unfold NestedHeap.addNewQuestion, Nested.addNewQuestion.
  destruct (mapM_copy_spec qs σ Hwf) as [Hown Hd]. unfold bind.
  destruct (mapM NestedHeap.copy qs σ) as [out σ1].
  unfold makeBlankQuestion, bind, alloc, ret. simpl in Hown, Hd |- *.
  split.
  - eapply own_options_app; [exact Hown|].
    apply own_options_fresh. reflexivity.
  - rewrite fmap_app, <- Hd. f_equal.
    + apply deref_weaken_list; [apply insert_subseteq, fresh_lookup|].
      eapply own_options_wf, Hown.
    + unfold deref. simpl. rewrite lookup_insert_eq. reflexivity.
Qed.

Lemma find_deref (i : Z) σ qs :
  List.find (λ v, id v =? i) (deref σ <$> qs)
  = deref σ <$> List.find (λ q, id q =? i) qs.
Proof.
  induction qs as [|q qs IH]; [reflexivity|].
  rewrite fmap_cons. simpl. destruct (id q =? i); [reflexivity|exact IH].
Qed.

(** [findQuestion] hands back a copy that owns its options. *)
Lemma findQuestion_call (i : Z) qs σ :
  wf σ qs →
  own_options σ (NestedHeap.findQuestion qs i σ).2
              (option_list (NestedHeap.findQuestion qs i σ).1)
  ∧ deref (NestedHeap.findQuestion qs i σ).2
      <$> (NestedHeap.findQuestion qs i σ).1
    = Nested.findQuestion (deref σ <$> qs) i.
Proof.
  intros Hwf. unfold NestedHeap.findQuestion, Nested.findQuestion.
  rewrite find_deref.
  destruct (List.find (λ q, id q =? i) qs) as [q|]; run.
  - split; [apply own_options_fresh; reflexivity|].
    unfold deref. simpl. rewrite lookup_insert_eq. reflexivity.
  - split; [apply own_options_nil|reflexivity].
Qed.

Lemma call_spec_unaffected f g :
  call_spec f g →
  ∀ qs σ, wf σ qs → input_unaffected qs σ (f qs σ).1 (f qs σ).2.
Proof.
  intros Hf qs σ Hwf. apply own_options_unaffected; [exact Hwf|].
  apply Hf, Hwf.
Qed.

(** Every function of the library that copies: updating the options of
    an object it returned never changes what the input sees. *)
Theorem copying_functions_unaffected qs σ :
  wf σ qs →
  input_unaffected qs σ (NestedHeap.getPublishedQuestions qs σ).1
                   (NestedHeap.getPublishedQuestions qs σ).2
  ∧ (∀ i, input_unaffected qs σ (NestedHeap.removeQuestion qs i σ).1
                           (NestedHeap.removeQuestion qs i σ).2)
  ∧ (∀ i, input_unaffected qs σ
            (option_list (NestedHeap.findQuestion qs i σ).1)
            (NestedHeap.findQuestion qs i σ).2)
  ∧ input_unaffected qs σ (NestedHeap.publishAll qs σ).1
                     (NestedHeap.publishAll qs σ).2
  ∧ (∀ i n t, input_unaffected qs σ
                (NestedHeap.addNewQuestion qs i n t σ).1
                (NestedHeap.addNewQuestion qs i n t σ).2)
  ∧ (∀ i n, input_unaffected qs σ
              (NestedHeap.renameQuestionById qs i n σ).1
              (NestedHeap.renameQuestionById qs i n σ).2)
  ∧ (∀ i t, input_unaffected qs σ
              (NestedHeap.changeQuestionTypeById qs i t σ).1
              (NestedHeap.changeQuestionTypeById qs i t σ).2)
  ∧ (∀ i k x, input_unaffected qs σ
                (NestedHeap.editOption qs i k x σ).1
                (NestedHeap.editOption qs i k x σ).2)
  ∧ (∀ i j, input_unaffected qs σ
              (NestedHeap.duplicateQuestionInArray qs i j σ).1
              (NestedHeap.duplicateQuestionInArray qs i j σ).2).
Proof.
  intros Hwf.
  split; [exact (call_spec_unaffected _ _ getPublishedQuestions_call _ _ Hwf)|].
  split; [intros i;
          exact (call_spec_unaffected _ _ (removeQuestion_call i) _ _ Hwf)|].
  split; [intros i; apply own_options_unaffected;
          [exact Hwf|apply findQuestion_call, Hwf]|].
  split; [exact (call_spec_unaffected _ _ publishAll_call _ _ Hwf)|].
  split; [intros i n t;
          exact (call_spec_unaffected _ _ (addNewQuestion_call i n t) _ _ Hwf)|].
  split; [intros i n;
          exact (call_spec_unaffected _ _ (renameQuestionById_call i n) _ _ Hwf)|].
  split; [intros i t;
          exact (call_spec_unaffected _ _ (changeQuestionTypeById_call i t) _ _ Hwf)|].
  split; [intros i k x;
          exact (call_spec_unaffected _ _ (editOption_call i k x) _ _ Hwf)|].
  intros i j.
  exact (call_spec_unaffected _ _ (duplicateQuestionInArray_call i j) _ _ Hwf).
Qed.

(** *** [getNonEmptyQuestions] does not copy *)

(** The test of [getNonEmptyQuestions] only reads: the store is left as
    it is and every object of the result is an object of the input. *)
Lemma getNonEmptyQuestions_same_objects qs σ :
  (NestedHeap.getNonEmptyQuestions qs σ).2 = σ
  ∧ (∀ o, o ∈ (NestedHeap.getNonEmptyQuestions qs σ).1 → o ∈ qs)
  ∧ deref σ <$> (NestedHeap.getNonEmptyQuestions qs σ).1
    = Nested.getNonEmptyQuestions (deref σ <$> qs).
Proof.
  unfold NestedHeap.getNonEmptyQuestions, Nested.getNonEmptyQuestions.
  induction qs as [|q qs (IH1 & IH2 & IH3)].
  - repeat split. intros o Ho. exact Ho.
  - simpl filterM. unfold bind, ret, read in *. simpl.
    destruct (filterM _ qs σ) as [rest σ'] eqn:E. simpl in IH1, IH2, IH3.
    subst σ'. simpl. split; [reflexivity|].
    destruct (Js.nonempty_string (Js.trim (body q))
              || (0 <? Z.of_nat (length (default [] (σ !! options q))))
              || Js.nonempty_string (Js.trim (expected q))).
    + split.
      * intros o [->|Ho]%elem_of_cons; [left|right; apply IH2, Ho].
      * rewrite fmap_cons. f_equal. exact IH3.
    + split; [intros o Ho; right; apply IH2, Ho|exact IH3].
Qed.

(** C1 at the failing input.  The input is one question with the body
    ["b"] whose options array, at location 1, holds ["a"].
    [getNonEmptyQuestions] returns that very object, options reference
    included, and allocates nothing; pushing ["X"] onto the options of the
    returned question changes what the input question reads, from ["a"]
    to ["a"; "X"].  On the same input [getPublishedQuestions] returns a
    question with an options array of its own, and the same push leaves
    the input as it was. *)
Theorem getNonEmptyQuestions_aliases_input :
  (NestedHeap.getNonEmptyQuestions
     [mkQuestion 1 "Q" multiple_choice_question "b" "" 1%positive 1 true]
     {[ 1%positive := ["a"] ]}).1
  = [mkQuestion 1 "Q" multiple_choice_question "b" "" 1%positive 1 true]
  ∧ options
      (deref
         ((let* out := NestedHeap.getNonEmptyQuestions
              [mkQuestion 1 "Q" multiple_choice_question "b" "" 1%positive
                          1 true] in
           match out with
           | o :: _ =>
               let* opts := read (options o) in
               write (options o) (opts ++ ["X"])
           | [] => ret tt
           end) {[ 1%positive := ["a"] ]}).2
         (mkQuestion 1 "Q" multiple_choice_question "b" "" 1%positive 1
                     true))
    = ["a"; "X"]
  ∧ options
      (deref
         ((let* out := NestedHeap.getPublishedQuestions
              [mkQuestion 1 "Q" multiple_choice_question "b" "" 1%positive
                          1 true] in
           match out with
           | o :: _ =>
               let* opts := read (options o) in
               write (options o) (opts ++ ["X"])
           | [] => ret tt
           end) {[ 1%positive := ["a"] ]}).2
         (mkQuestion 1 "Q" multiple_choice_question "b" "" 1%positive 1
                     true))
    = ["a"]
  ∧ ¬ input_unaffected
        [mkQuestion 1 "Q" multiple_choice_question "b" "" 1%positive 1 true]
        {[ 1%positive := ["a"] ]}
        (NestedHeap.getNonEmptyQuestions
           [mkQuestion 1 "Q" multiple_choice_question "b" "" 1%positive 1
                       true]
           {[ 1%positive := ["a"] ]}).1
        (NestedHeap.getNonEmptyQuestions
           [mkQuestion 1 "Q" multiple_choice_question "b" "" 1%positive 1
                       true]
           {[ 1%positive := ["a"] ]}).2.
Proof.
  split; [vm_compute; reflexivity|].
  split; [vm_compute; reflexivity|].
  split; [vm_compute; reflexivity|].
  intros H.
  specialize (H (mkQuestion 1 "Q" multiple_choice_question "b" ""
                            1%positive 1 true)
                ["a"; "X"]
                (mkQuestion 1 "Q" multiple_choice_question "b" ""
                            1%positive 1 true)).
  assert (Hin : mkQuestion 1 "Q" multiple_choice_question "b" ""
                           1%positive 1 true
                ∈ [mkQuestion 1 "Q" multiple_choice_question "b" ""
                              1%positive 1 true]) by constructor.
  specialize (H Hin Hin). vm_compute in H. discriminate H.
Qed.

End ReferenceSemantics.

(** ** Value semantics: the remaining functions and how they compose *)

Section Composition.

Implicit Types (q : Nested.Question) (qs : list Nested.Question).

Lemma removeQuestion_filter qs (i : Z) :
  Nested.removeQuestion qs i = List.filter (λ q, negb (id q =? i)) qs.
Proof. unfold Nested.removeQuestion. apply map_copy_id. Qed.

Lemma getPublishedQuestions_filter qs :
  Nested.getPublishedQuestions qs = List.filter (λ q, published q) qs.
Proof. unfold Nested.getPublishedQuestions. apply map_copy_id. Qed.

Lemma filter_idem {A} (p : A → bool) (l : list A) :
  List.filter p (List.filter p l) = List.filter p l.
Proof.
  induction l as [|a l IH]; [reflexivity|]. simpl.
  destruct (p a) eqn:Ha; simpl; [rewrite Ha, IH|]; trivial.
Qed.

Lemma filter_comm {A} (p r : A → bool) (l : list A) :
  List.filter p (List.filter r l) = List.filter r (List.filter p l).
Proof.
  induction l as [|a l IH]; [reflexivity|]. simpl.
  destruct (r a) eqn:Hr, (p a) eqn:Hp; simpl;
    rewrite ?Hr, ?Hp, IH; reflexivity.
Qed.

Lemma filter_all {A} (p : A → bool) (l : list A) :
  Forall (λ a, p a = true) l → List.filter p l = l.
Proof.
  induction 1 as [|a l Ha _ IH]; [reflexivity|].
  simpl. rewrite Ha, IH. reflexivity.
Qed.

Lemma filter_length_split {A} (p : A → bool) (l : list A) :
  (length (List.filter p l) + length (List.filter (λ a, negb (p a)) l)
   = length l)%nat.
Proof.
  induction l as [|a l IH]; [reflexivity|]. simpl.
  destruct (p a); simpl; lia.
Qed.

(** *** [removeQuestion] *)

(** X1.  [removeQuestion qs i] is a subsequence of [qs] that holds exactly the
    entries whose [id] is not [i]: no entry with that [id] is left (all of
    them go when the [id] occurs more than once), every other entry stays,
    and the lengths add up. *)
Theorem removeQuestion_spec qs (i : Z) :
  Nested.removeQuestion qs i `sublist_of` qs
  ∧ Forall (λ q, id q ≠ i) (Nested.removeQuestion qs i)
  ∧ (∀ q, q ∈ Nested.removeQuestion qs i ↔ q ∈ qs ∧ id q ≠ i)
  ∧ (length (Nested.removeQuestion qs i)
     + length (List.filter (λ q, (id q =? i)%Z) qs) = length qs)%nat.
Proof.
  rewrite removeQuestion_filter.
  assert (Hin : ∀ q, q ∈ List.filter (λ q, negb (id q =? i)) qs
                     ↔ q ∈ qs ∧ id q ≠ i).
  { intros q. rewrite !list_elem_of_In, filter_In, negb_true_iff.
    rewrite Z.eqb_neq. reflexivity. }
  split; [apply filter_sublist_of|]. split.
  { apply Forall_forall. intros q Hq. apply Hin in Hq. tauto. }
  split; [exact Hin|].
  rewrite <- (filter_length_split (λ q, id q =? i) qs). lia.
Qed.

(** X2.  Removing is idempotent, and two removals can be done in either
    order. *)
Theorem removeQuestion_idempotent_commutes qs (i j : Z) :
  Nested.removeQuestion (Nested.removeQuestion qs i) i
  = Nested.removeQuestion qs i
  ∧ Nested.removeQuestion (Nested.removeQuestion qs i) j
    = Nested.removeQuestion (Nested.removeQuestion qs j) i.
Proof.
  rewrite !removeQuestion_filter. split; [apply filter_idem|].
  apply filter_comm.
Qed.

Lemma find_filter_other (i j : Z) qs :
  i ≠ j →
  List.find (λ q, id q =? j) (List.filter (λ q, negb (id q =? i)) qs)
  = List.find (λ q, id q =? j) qs.
Proof.
  intros Hij. induction qs as [|q qs IH]; [reflexivity|]. simpl.
  destruct (Z.eqb_spec (id q) i) as [Hi|Hi]; simpl.
  - destruct (Z.eqb_spec (id q) j) as [Hj|Hj]; [congruence|exact IH].
  - rewrite IH. reflexivity.
Qed.

(** X3.  After [removeQuestion qs i], looking [i] up finds nothing, and looking
    any other id up finds what it found before. *)
Theorem findQuestion_removeQuestion qs (i : Z) :
  Nested.findQuestion (Nested.removeQuestion qs i) i = None
  ∧ ∀ j, i ≠ j →
      Nested.findQuestion (Nested.removeQuestion qs i) j
      = Nested.findQuestion qs j.
Proof.
  rewrite removeQuestion_filter. unfold Nested.findQuestion. split.
  - assert (H : List.find (λ q, id q =? i)
                  (List.filter (λ q, negb (id q =? i)) qs) = None).
    { apply find_absent, Forall_forall. intros q Hq.
      apply list_elem_of_In, filter_In in Hq as [_ Hq].
      apply negb_true_iff, Z.eqb_neq in Hq. exact Hq. }
    rewrite H. reflexivity.
  - intros j Hij. rewrite find_filter_other by assumption. reflexivity.
Qed.

Lemma findQuestion_removeQuestion_witness :
  1 ≠ 2
  ∧ Nested.findQuestion
      (Nested.removeQuestion
         [mkQuestion 1 "A" multiple_choice_question "" "" ["x"] 2 false;
          mkQuestion 2 "B" short_answer_question "" "" [] 3 true] 1) 2
    = Some (mkQuestion 2 "B" short_answer_question "" "" [] 3 true).
Proof.
  split; [lia|].
  rewrite (proj2 (findQuestion_removeQuestion _ 1) 2); [reflexivity|lia].
Defined.

(** *** [getNames] and [makeAnswers] *)

(** X4.  [getNames] gives one name per question, in order; the names are those
    of the input after publishing, after a change of type and after an
    edit of an option, and a rename shows in the names of exactly the
    entries with the target id. *)
Theorem getNames_spec qs :
  length (Nested.getNames qs) = length qs
  ∧ (∀ i : nat, Nested.getNames qs !! i = name <$> qs !! i)
  ∧ Nested.getNames (Nested.publishAll qs) = Nested.getNames qs
  ∧ (∀ t ty, Nested.getNames (Nested.changeQuestionTypeById qs t ty)
             = Nested.getNames qs)
  ∧ (∀ t k x, Nested.getNames (Nested.editOption qs t k x)
              = Nested.getNames qs)
  ∧ (∀ t n, Nested.getNames (Nested.renameQuestionById qs t n)
            = map (λ q, if id q =? t then n else name q) qs).
Proof.
  unfold Nested.getNames.
  split; [apply length_map|]. split; [intros i; apply lookup_map|].
  split.
  { unfold Nested.publishAll. rewrite map_map. reflexivity. }
  split.
  { intros t ty. unfold Nested.changeQuestionTypeById. rewrite map_map.
    apply map_ext. intros q. destruct (t =? id q), ty; reflexivity. }
  split.
  { intros t k x. unfold Nested.editOption. rewrite map_map.
    apply map_ext. intros q.
    destruct (t =? id q), (k =? -1); reflexivity. }
  intros t n. unfold Nested.renameQuestionById. rewrite map_map.
  apply map_ext. intros q. rewrite (Z.eqb_sym (id q) t).
  destruct (t =? id q); reflexivity.
Qed.

(** X5.  [makeAnswers] gives one answer per question, in order, carrying the
    question's [id]; every answer has an empty text and is neither
    submitted nor correct. *)
Theorem makeAnswers_spec qs :
  length (Nested.makeAnswers qs) = length qs
  ∧ map questionId (Nested.makeAnswers qs) = map id qs
  ∧ Forall (λ a, text a = "" ∧ submitted a = false ∧ correct a = false)
           (Nested.makeAnswers qs).
Proof.
  unfold Nested.makeAnswers. split; [apply length_map|]. split.
  - rewrite map_map. reflexivity.
  - induction qs as [|q qs IH]; simpl; constructor; [repeat split|exact IH].
Qed.

(** *** Sums of points *)

Lemma sumPoints_from qs (a : Z) :
  fold_left (λ total q, total + points q) qs a
  = a + fold_left (λ total q, total + points q) qs 0.
Proof.
  revert a. induction qs as [|q qs IH]; intros a; simpl; [lia|].
  rewrite (IH (a + points q)), (IH (0 + points q)). lia.
Qed.

Lemma sumPublishedPoints_from qs (a : Z) :
  fold_left (λ total q, if published q then total + points q else total)
            qs a
  = fold_left (λ total q, total + points q)
              (List.filter (λ q, published q) qs) a.
Proof.
  revert a. induction qs as [|q qs IH]; intros a; simpl; [reflexivity|].
  destruct (published q); simpl; apply IH.
Qed.

(** X6.  The sum of the published points is the sum of the points of the
    published questions. *)
Theorem sumPublishedPoints_getPublishedQuestions qs :
  Nested.sumPublishedPoints qs
  = Nested.sumPoints (Nested.getPublishedQuestions qs).
Proof.
  rewrite getPublishedQuestions_filter.
  unfold Nested.sumPublishedPoints, Nested.sumPoints, Js.reduce.
  apply sumPublishedPoints_from.
Qed.

Lemma Forall_filter_nonneg (p : Nested.Question → bool) qs :
  Forall (λ q, 0 ≤ points q) qs →
  Forall (λ q, 0 ≤ points q) (List.filter p qs).
Proof.
  rewrite !Forall_forall. intros H q Hq. apply H.
  apply list_elem_of_In. apply list_elem_of_In, filter_In in Hq. tauto.
Qed.

Lemma sumPoints_app_eq qs1 qs2 :
  Nested.sumPoints (qs1 ++ qs2)
  = Nested.sumPoints qs1 + Nested.sumPoints qs2
  ∧ Nested.sumPublishedPoints (qs1 ++ qs2)
    = Nested.sumPublishedPoints qs1 + Nested.sumPublishedPoints qs2.
Proof.
  unfold Nested.sumPoints, Nested.sumPublishedPoints, Js.reduce. split.
  - rewrite fold_left_app. apply sumPoints_from.
  - rewrite !sumPublishedPoints_from, List.filter_app, fold_left_app.
    apply sumPoints_from.
Qed.

Lemma sumPoints_nonneg qs :
  Forall (λ q, 0 ≤ points q) qs → 0 ≤ Nested.sumPoints qs.
Proof.
  induction 1 as [|q qs Hq _ IH]; [reflexivity|].
  change (q :: qs) with ([q] ++ qs).
  rewrite (proj1 (sumPoints_app_eq [q] qs)).
  change (Nested.sumPoints [q]) with (0 + points q). lia.
Qed.

(** With points that are not negative, every intermediate result of the
    two reductions lies between 0 and the total of all points. *)
Lemma partial_sums_bounded qs (n : nat) :
  Forall (λ q, 0 ≤ points q) qs →
  0 ≤ Nested.sumPublishedPoints (take n qs)
  ∧ Nested.sumPublishedPoints (take n qs) ≤ Nested.sumPoints (take n qs)
  ∧ Nested.sumPoints (take n qs) ≤ Nested.sumPoints qs.
Proof.
  intros Hqs.
  assert (Ht : Forall (λ q, 0 ≤ points q) (take n qs))
    by (apply Forall_take, Hqs).
  assert (Hd : Forall (λ q, 0 ≤ points q) (drop n qs))
    by (apply Forall_drop, Hqs).
  split; [|split].
  - unfold Nested.sumPublishedPoints, Js.reduce.
    rewrite sumPublishedPoints_from.
    apply (sumPoints_nonneg (List.filter (λ q, published q) (take n qs))).
    apply Forall_filter_nonneg, Ht.
  - unfold Nested.sumPublishedPoints, Nested.sumPoints, Js.reduce.
    apply sum_published_le_from; [exact Ht|lia].
  - rewrite <- (take_drop n qs) at 2.
    rewrite (proj1 (sumPoints_app_eq _ _)).
    pose proof (sumPoints_nonneg _ Hd). lia.
Qed.

(** X7.  For points that are not negative and a total of at most 2^53 (the
    range in which the additions of the code, on integers, are exact):
    every intermediate result of [sumPoints] and [sumPublishedPoints], on
    the two parts and on their concatenation, lies between 0 and 2^53,
    and both sums are additive over the concatenation. *)
Theorem sumPoints_app qs1 qs2 :
  Forall (λ q, 0 ≤ points q) (qs1 ++ qs2) →
  Nested.sumPoints (qs1 ++ qs2) ≤ 2 ^ 53 →
  (∀ n : nat,
     (0 ≤ Nested.sumPublishedPoints (take n qs1)
      ∧ Nested.sumPublishedPoints (take n qs1)
        ≤ Nested.sumPoints (take n qs1)
      ∧ Nested.sumPoints (take n qs1) ≤ 2 ^ 53)
     ∧ (0 ≤ Nested.sumPublishedPoints (take n qs2)
        ∧ Nested.sumPublishedPoints (take n qs2)
          ≤ Nested.sumPoints (take n qs2)
        ∧ Nested.sumPoints (take n qs2) ≤ 2 ^ 53)
     ∧ (0 ≤ Nested.sumPublishedPoints (take n (qs1 ++ qs2))
        ∧ Nested.sumPublishedPoints (take n (qs1 ++ qs2))
          ≤ Nested.sumPoints (take n (qs1 ++ qs2))
        ∧ Nested.sumPoints (take n (qs1 ++ qs2)) ≤ 2 ^ 53))
  ∧ Nested.sumPoints (qs1 ++ qs2)
    = Nested.sumPoints qs1 + Nested.sumPoints qs2
  ∧ Nested.sumPublishedPoints (qs1 ++ qs2)
    = Nested.sumPublishedPoints qs1 + Nested.sumPublishedPoints qs2.
Proof.
  intros Hnn Hmax. pose proof Hnn as [H1 H2]%Forall_app.
  destruct (sumPoints_app_eq qs1 qs2) as [Hs Hp].
  pose proof (sumPoints_nonneg _ H1). pose proof (sumPoints_nonneg _ H2).
  split; [|split; assumption].
  intros n.
  pose proof (partial_sums_bounded qs1 n H1) as (? & ? & ?).
  pose proof (partial_sums_bounded qs2 n H2) as (? & ? & ?).
  pose proof (partial_sums_bounded (qs1 ++ qs2) n Hnn) as (? & ? & ?).
  repeat split; try assumption; lia.
Qed.

Lemma sumPoints_app_witness :
  Forall (λ q : Nested.Question, 0 ≤ points q)
         ([mkQuestion 1 "A" multiple_choice_question "" "" [] 2 false]
          ++ [mkQuestion 2 "B" short_answer_question "" "" [] 3 true])
  ∧ Nested.sumPoints
      ([mkQuestion 1 "A" multiple_choice_question "" "" [] 2 false]
       ++ [mkQuestion 2 "B" short_answer_question "" "" [] 3 true])
    ≤ 2 ^ 53
  ∧ Nested.sumPoints
      ([mkQuestion 1 "A" multiple_choice_question "" "" [] 2 false]
       ++ [mkQuestion 2 "B" short_answer_question "" "" [] 3 true])
    = Nested.sumPoints
        [mkQuestion 1 "A" multiple_choice_question "" "" [] 2 false]
      + Nested.sumPoints
          [mkQuestion 2 "B" short_answer_question "" "" [] 3 true].
Proof.
  assert (H : Forall (λ q : Nested.Question, 0 ≤ points q)
                ([mkQuestion 1 "A" multiple_choice_question "" "" [] 2 false]
                 ++ [mkQuestion 2 "B" short_answer_question "" "" [] 3
                                true])).
  { repeat constructor; simpl; lia. }
  assert (Hm : Nested.sumPoints
                 ([mkQuestion 1 "A" multiple_choice_question "" "" [] 2
                              false]
                  ++ [mkQuestion 2 "B" short_answer_question "" "" [] 3
                                 true]) ≤ 2 ^ 53).
  { vm_compute. discriminate. }
  split; [exact H|]. split; [exact Hm|].
  exact (proj1 (proj2 (sumPoints_app _ _ H Hm))).
Defined.

(** X8.  Publishing everything leaves the total as it is and makes the
    published total equal to it. *)
Theorem sumPoints_publishAll qs :
  Nested.sumPoints (Nested.publishAll qs) = Nested.sumPoints qs
  ∧ Nested.sumPublishedPoints (Nested.publishAll qs) = Nested.sumPoints qs.
Proof.
  unfold Nested.sumPoints, Nested.sumPublishedPoints, Js.reduce,
    Nested.publishAll.
  split.
  - generalize 0. induction qs as [|q qs IH]; intros a; simpl;
      [reflexivity|apply IH].
  - generalize 0. induction qs as [|q qs IH]; intros a; simpl;
      [reflexivity|apply IH].
Qed.

(** *** [getPublishedQuestions] and [publishAll] *)

(** X9.  After [publishAll] every question is published, so
    [getPublishedQuestions] keeps all of them; the entries differ from the
    input in [published] only; and [getPublishedQuestions] is
    idempotent. *)
Theorem getPublishedQuestions_publishAll qs :
  Nested.getPublishedQuestions (Nested.publishAll qs)
  = Nested.publishAll qs
  ∧ Forall (λ q, published q = true) (Nested.publishAll qs)
  ∧ (∀ (i : nat), Nested.publishAll qs !! i
                  = (λ q, with_published q true) <$> qs !! i)
  ∧ Nested.getPublishedQuestions (Nested.getPublishedQuestions qs)
    = Nested.getPublishedQuestions qs.
Proof.
  assert (Hall : Forall (λ q, published q = true) (Nested.publishAll qs)).
  { unfold Nested.publishAll.
    induction qs as [|q qs IH]; simpl; constructor; [reflexivity|exact IH]. }
  split; [|split; [exact Hall|split]].
  - rewrite getPublishedQuestions_filter. apply filter_all. exact Hall.
  - intros i. unfold Nested.publishAll. rewrite lookup_map.
    destruct (qs !! i) as [q|]; [|reflexivity]. simpl.
    rewrite copy_id. reflexivity.
  - rewrite !getPublishedQuestions_filter. apply filter_idem.
Qed.

(** *** [getNonEmptyQuestions] *)

Lemma nonempty_string_true (s : string) :
  Js.nonempty_string s = true ↔ s ≠ "".
Proof. destruct s; simpl; split; congruence. Qed.

Lemma length_pos_true {A} (l : list A) :
  (0 <? Z.of_nat (length l)) = true ↔ l ≠ [].
Proof.
  destruct l; simpl; split; try congruence; try discriminate.
  intros _. apply Z.ltb_lt. lia.
Qed.

(** **** What [trim] leaves of a blank string *)

Lemma ascii_of_code (c : ascii) (n : N) :
  N_of_ascii c = n → c = ascii_of_N n.
Proof. intros <-. symmetry. apply ascii_N_embedding. Qed.

Lemma white_space_1 (a : N) :
  Js.is_white_space [a] = true →
  (a = 9 ∨ a = 10 ∨ a = 11 ∨ a = 12 ∨ a = 13 ∨ a = 32)%N.
Proof.
  unfold Js.is_white_space. rewrite !orb_true_iff, !N.eqb_eq. tauto.
Qed.

Lemma white_space_2 (a b : N) :
  Js.is_white_space [a; b] = true → (a = 194 ∧ b = 160)%N.
Proof.
  unfold Js.is_white_space. rewrite andb_true_iff, !N.eqb_eq. tauto.
Qed.

Lemma white_space_3 (a b c : N) :
  Js.is_white_space [a; b; c] = true →
  (a = 225 ∧ b = 154 ∧ c = 128
   ∨ a = 226 ∧ b = 128
     ∧ (128 ≤ c ≤ 138 ∨ c = 168 ∨ c = 169 ∨ c = 175)
   ∨ a = 226 ∧ b = 129 ∧ c = 159
   ∨ a = 227 ∧ b = 128 ∧ c = 128
   ∨ a = 239 ∧ b = 187 ∧ c = 191)%N.
Proof.
  unfold Js.is_white_space.
  rewrite !orb_true_iff, !andb_true_iff, !orb_true_iff, !andb_true_iff,
    !N.eqb_eq, !N.leb_le.
  tauto.
Qed.

Lemma tokens_white_1 (c1 : ascii) (s1 : string) :
  Js.is_white_space [N_of_ascii c1] = true →
  Js.tokens (String c1 s1) = Js.mkToken true c1 "" :: Js.tokens s1.
Proof. intros H. cbn [Js.tokens]. rewrite H. reflexivity. Qed.

Lemma tokens_other_1 (c1 : ascii) :
  Js.is_white_space [N_of_ascii c1] = false →
  Js.tokens (String c1 "") = [Js.mkToken false c1 ""].
Proof. intros H. cbn [Js.tokens]. rewrite H. reflexivity. Qed.

Lemma tokens_white_2 (c1 c2 : ascii) (s2 : string) :
  Js.is_white_space [N_of_ascii c1] = false →
  Js.is_white_space [N_of_ascii c1; N_of_ascii c2] = true →
  Js.tokens (String c1 (String c2 s2))
  = Js.mkToken true c1 (String c2 "") :: Js.tokens s2.
Proof.
  intros H1 H2.
  change (Js.tokens (String c1 (String c2 s2)))
    with (if Js.is_white_space [N_of_ascii c1]
          then Js.mkToken true c1 "" :: Js.tokens (String c2 s2)
          else if Js.is_white_space [N_of_ascii c1; N_of_ascii c2]
               then Js.mkToken true c1 (String c2 "") :: Js.tokens s2
               else match s2 with
                    | String c3 s3 =>
                        if Js.is_white_space
                             [N_of_ascii c1; N_of_ascii c2; N_of_ascii c3]
                        then Js.mkToken true c1 (String c2 (String c3 ""))
                             :: Js.tokens s3
                        else Js.mkToken false c1 ""
                             :: Js.tokens (String c2 s2)
                    | EmptyString =>
                        Js.mkToken false c1 "" :: Js.tokens (String c2 s2)
                    end).
  rewrite H1, H2. reflexivity.
Qed.

Lemma tokens_other_2 (c1 c2 : ascii) (s2 : string) :
  Js.is_white_space [N_of_ascii c1] = false →
  Js.is_white_space [N_of_ascii c1; N_of_ascii c2] = false →
  match s2 with
  | String c3 _ =>
      Js.is_white_space [N_of_ascii c1; N_of_ascii c2; N_of_ascii c3]
      = false
  | EmptyString => True
  end →
  Js.tokens (String c1 (String c2 s2))
  = Js.mkToken false c1 "" :: Js.tokens (String c2 s2).
Proof.
  intros H1 H2 H3.
  change (Js.tokens (String c1 (String c2 s2)))
    with (if Js.is_white_space [N_of_ascii c1]
          then Js.mkToken true c1 "" :: Js.tokens (String c2 s2)
          else if Js.is_white_space [N_of_ascii c1; N_of_ascii c2]
               then Js.mkToken true c1 (String c2 "") :: Js.tokens s2
               else match s2 with
                    | String c3 s3 =>
                        if Js.is_white_space
                             [N_of_ascii c1; N_of_ascii c2; N_of_ascii c3]
                        then Js.mkToken true c1 (String c2 (String c3 ""))
                             :: Js.tokens s3
                        else Js.mkToken false c1 ""
                             :: Js.tokens (String c2 s2)
                    | EmptyString =>
                        Js.mkToken false c1 "" :: Js.tokens (String c2 s2)
                    end).
  rewrite H1, H2. destruct s2 as [|c3 s3]; [reflexivity|].
  rewrite H3. reflexivity.
Qed.

Lemma tokens_white_3 (c1 c2 c3 : ascii) (s3 : string) :
  Js.is_white_space [N_of_ascii c1] = false →
  Js.is_white_space [N_of_ascii c1; N_of_ascii c2] = false →
  Js.is_white_space [N_of_ascii c1; N_of_ascii c2; N_of_ascii c3] = true →
  Js.tokens (String c1 (String c2 (String c3 s3)))
  = Js.mkToken true c1 (String c2 (String c3 "")) :: Js.tokens s3.
Proof.
  intros H1 H2 H3.
  change (Js.tokens (String c1 (String c2 (String c3 s3))))
    with (if Js.is_white_space [N_of_ascii c1]
          then Js.mkToken true c1 ""
               :: Js.tokens (String c2 (String c3 s3))
          else if Js.is_white_space [N_of_ascii c1; N_of_ascii c2]
               then Js.mkToken true c1 (String c2 "")
                    :: Js.tokens (String c3 s3)
               else if Js.is_white_space
                         [N_of_ascii c1; N_of_ascii c2; N_of_ascii c3]
                    then Js.mkToken true c1 (String c2 (String c3 ""))
                         :: Js.tokens s3
                    else Js.mkToken false c1 ""
                         :: Js.tokens (String c2 (String c3 s3))).
  rewrite H1, H2, H3. reflexivity.
Qed.

(** A white-space character of the table of [trim] is the encoding of one
    of the code points of the specification. *)
Ltac blank_step s IH :=
  first
    [ exact (Spec.blank_white 9 s ltac:(simpl; tauto) IH)
    | exact (Spec.blank_white 10 s ltac:(simpl; tauto) IH)
    | exact (Spec.blank_white 11 s ltac:(simpl; tauto) IH)
    | exact (Spec.blank_white 12 s ltac:(simpl; tauto) IH)
    | exact (Spec.blank_white 13 s ltac:(simpl; tauto) IH)
    | exact (Spec.blank_white 32 s ltac:(simpl; tauto) IH)
    | exact (Spec.blank_white 160 s ltac:(simpl; tauto) IH)
    | exact (Spec.blank_white 5760 s ltac:(simpl; tauto) IH)
    | exact (Spec.blank_white 8192 s ltac:(simpl; tauto) IH)
    | exact (Spec.blank_white 8193 s ltac:(simpl; tauto) IH)
    | exact (Spec.blank_white 8194 s ltac:(simpl; tauto) IH)
    | exact (Spec.blank_white 8195 s ltac:(simpl; tauto) IH)
    | exact (Spec.blank_white 8196 s ltac:(simpl; tauto) IH)
    | exact (Spec.blank_white 8197 s ltac:(simpl; tauto) IH)
    | exact (Spec.blank_white 8198 s ltac:(simpl; tauto) IH)
    | exact (Spec.blank_white 8199 s ltac:(simpl; tauto) IH)
    | exact (Spec.blank_white 8200 s ltac:(simpl; tauto) IH)
    | exact (Spec.blank_white 8201 s ltac:(simpl; tauto) IH)
    | exact (Spec.blank_white 8202 s ltac:(simpl; tauto) IH)
    | exact (Spec.blank_white 8232 s ltac:(simpl; tauto) IH)
    | exact (Spec.blank_white 8233 s ltac:(simpl; tauto) IH)
    | exact (Spec.blank_white 8239 s ltac:(simpl; tauto) IH)
    | exact (Spec.blank_white 8287 s ltac:(simpl; tauto) IH)
    | exact (Spec.blank_white 12288 s ltac:(simpl; tauto) IH)
    | exact (Spec.blank_white 65279 s ltac:(simpl; tauto) IH) ].

Lemma white_tokens_blank (n : nat) :
  ∀ s, (String.length s ≤ n)%nat →
       forallb Js.tok_white (Js.tokens s) = true → Spec.blank s.
Proof.
  induction n as [|n IH]; intros s Hlen H.
  { destruct s; [constructor|simpl in Hlen; lia]. }
  destruct s as [|c1 s1]; [constructor|]. simpl in Hlen.
  destruct (Js.is_white_space [N_of_ascii c1]) eqn:E1.
  { rewrite (tokens_white_1 _ _ E1) in H.
    assert (Hs : Spec.blank s1) by (apply IH; [lia|exact H]).
    apply white_space_1 in E1.
    destruct E1 as [E|[E|[E|[E|[E|E]]]]];
      apply ascii_of_code in E; subst c1; blank_step s1 Hs. }
  destruct s1 as [|c2 s2].
  { rewrite (tokens_other_1 _ E1) in H. discriminate H. }
  simpl in Hlen.
  destruct (Js.is_white_space [N_of_ascii c1; N_of_ascii c2]) eqn:E2.
  { rewrite (tokens_white_2 _ _ _ E1 E2) in H.
    assert (Hs : Spec.blank s2) by (apply IH; [lia|exact H]).
    apply white_space_2 in E2 as [Ea Eb].
    apply ascii_of_code in Ea, Eb. subst c1 c2. blank_step s2 Hs. }
  destruct s2 as [|c3 s3].
  { rewrite (tokens_other_2 c1 c2 EmptyString E1 E2 I) in H.
    discriminate H. }
  simpl in Hlen.
  destruct (Js.is_white_space
              [N_of_ascii c1; N_of_ascii c2; N_of_ascii c3]) eqn:E3.
  - rewrite (tokens_white_3 _ _ _ _ E1 E2 E3) in H.
    assert (Hs : Spec.blank s3) by (apply IH; [lia|exact H]).
    apply white_space_3 in E3.
    destruct E3 as [(Ea & Eb & Ec)|[(Ea & Eb & Ec)|[(Ea & Eb & Ec)
                   |[(Ea & Eb & Ec)|(Ea & Eb & Ec)]]]];
      apply ascii_of_code in Ea, Eb; subst c1 c2.
    + apply ascii_of_code in Ec. subst c3. blank_step s3 Hs.
    + assert (Hc : (N_of_ascii c3 = 128 ∨ N_of_ascii c3 = 129
                    ∨ N_of_ascii c3 = 130 ∨ N_of_ascii c3 = 131
                    ∨ N_of_ascii c3 = 132 ∨ N_of_ascii c3 = 133
                    ∨ N_of_ascii c3 = 134 ∨ N_of_ascii c3 = 135
                    ∨ N_of_ascii c3 = 136 ∨ N_of_ascii c3 = 137
                    ∨ N_of_ascii c3 = 138 ∨ N_of_ascii c3 = 168
                    ∨ N_of_ascii c3 = 169 ∨ N_of_ascii c3 = 175)%N)
        by lia.
      repeat (destruct Hc as [Hc|Hc];
              [apply ascii_of_code in Hc; subst c3; blank_step s3 Hs|]).
      apply ascii_of_code in Hc; subst c3; blank_step s3 Hs.
    + apply ascii_of_code in Ec. subst c3. blank_step s3 Hs.
    + apply ascii_of_code in Ec. subst c3. blank_step s3 Hs.
    + apply ascii_of_code in Ec. subst c3. blank_step s3 Hs.
  - rewrite (tokens_other_2 c1 c2 (String c3 s3) E1 E2 E3) in H.
    discriminate H.
Qed.

Lemma blank_white_tokens (s : string) :
  Spec.blank s → forallb Js.tok_white (Js.tokens s) = true.
Proof.
  induction 1 as [|p s Hp _ IH]; [reflexivity|].
  simpl in Hp.
  repeat (destruct Hp as [<-|Hp]; [vm_compute; exact IH|]).
  contradiction.
Qed.

Lemma untokens_empty (l : list Js.token) : Js.untokens l = "" ↔ l = [].
Proof. destruct l; simpl; split; (congruence || discriminate). Qed.

Lemma rev_empty {A} (l : list A) : rev l = [] ↔ l = [].
Proof.
  split; [|intros ->; reflexivity].
  intros H. apply (f_equal (@rev A)) in H. rewrite rev_involutive in H.
  exact H.
Qed.

Lemma drop_white_empty (l : list Js.token) :
  Js.drop_white l = [] ↔ forallb Js.tok_white l = true.
Proof.
  induction l as [|t l IH]; simpl; [tauto|].
  destruct (Js.tok_white t); simpl; [exact IH|].
  split; discriminate.
Qed.

Lemma drop_white_all (l : list Js.token) :
  forallb Js.tok_white (Js.drop_white l) = forallb Js.tok_white l.
Proof.
  induction l as [|t l IH]; simpl; [reflexivity|].
  destruct (Js.tok_white t) eqn:E; simpl; [exact IH|].
  rewrite E. reflexivity.
Qed.

Lemma forallb_rev {A} (f : A → bool) (l : list A) :
  forallb f (rev l) = forallb f l.
Proof.
  induction l as [|a l IH]; [reflexivity|].
  simpl. rewrite forallb_app, IH. simpl.
  rewrite andb_true_r. apply andb_comm.
Qed.

(** [trim] leaves nothing exactly of the blank strings. *)
Lemma trim_empty_blank (s : string) : Js.trim s = "" ↔ Spec.blank s.
Proof.
  unfold Js.trim.
  rewrite untokens_empty, rev_empty, drop_white_empty, forallb_rev,
    drop_white_all.
  split; [apply (white_tokens_blank (String.length s)); lia|].
  apply blank_white_tokens.
Qed.

Lemma count_occ_filter_kept (p : Nested.Question → bool) qs q :
  p q = true →
  count_occ Question_eq_dec (List.filter p qs) q
  = count_occ Question_eq_dec qs q.
Proof.
  intros Hq. induction qs as [|x qs IH]; [reflexivity|]. simpl.
  destruct (p x) eqn:Hx; simpl.
  - rewrite IH. reflexivity.
  - destruct (Question_eq_dec x q) as [->|_]; [congruence|exact IH].
Qed.

(** X10.  [getNonEmptyQuestions qs] is a subsequence of [qs] that holds
    exactly the entries whose body is not blank, or that have an option, or
    whose expected answer is not blank, each as often as [qs] holds it; a
    string is blank when it is made of white-space characters only (the
    WhiteSpace and LineTerminator code points of ECMAScript, the no-break
    space and the other Unicode spaces included).  Filtering twice changes
    nothing more. *)
Theorem getNonEmptyQuestions_spec qs :
  Nested.getNonEmptyQuestions qs `sublist_of` qs
  ∧ (∀ q, q ∈ Nested.getNonEmptyQuestions qs
          ↔ q ∈ qs ∧ (¬ Spec.blank (body q) ∨ options q ≠ []
                      ∨ ¬ Spec.blank (expected q)))
  ∧ (∀ q, ¬ Spec.blank (body q) ∨ options q ≠ []
          ∨ ¬ Spec.blank (expected q) →
          count_occ Question_eq_dec (Nested.getNonEmptyQuestions qs) q
          = count_occ Question_eq_dec qs q)
  ∧ Nested.getNonEmptyQuestions (Nested.getNonEmptyQuestions qs)
    = Nested.getNonEmptyQuestions qs.
Proof.
  assert (Hkeep : ∀ q,
    Js.nonempty_string (Js.trim (body q))
    || (0 <? Z.of_nat (length (options q)))
    || Js.nonempty_string (Js.trim (expected q)) = true
    ↔ ¬ Spec.blank (body q) ∨ options q ≠ [] ∨ ¬ Spec.blank (expected q)).
  { intros q. rewrite !orb_true_iff, !nonempty_string_true, length_pos_true.
    rewrite !trim_empty_blank. tauto. }
  unfold Nested.getNonEmptyQuestions.
  split; [apply filter_sublist_of|]. split; [|split; [|apply filter_idem]].
  - intros q. rewrite !list_elem_of_In, filter_In, Hkeep. reflexivity.
  - intros q Hq. apply count_occ_filter_kept, Hkeep, Hq.
Qed.

Lemma getNonEmptyQuestions_spec_witness :
  ¬ Spec.blank "x"
  ∧ Spec.blank (Spec.utf8 160 +:+ Spec.utf8 9 +:+ Spec.utf8 12288 +:+ " ")
  ∧ Nested.getNonEmptyQuestions
      [mkQuestion 1 "A" short_answer_question
                  (Spec.utf8 160 +:+ Spec.utf8 9 +:+ Spec.utf8 12288 +:+ " ")
                  (Spec.utf8 8232) [] 2 false;
       mkQuestion 2 "B" short_answer_question " " " x " [] 3 true;
       mkQuestion 2 "B" short_answer_question " " " x " [] 3 true]
    = [mkQuestion 2 "B" short_answer_question " " " x " [] 3 true;
       mkQuestion 2 "B" short_answer_question " " " x " [] 3 true]
  ∧ count_occ Question_eq_dec
      (Nested.getNonEmptyQuestions
         [mkQuestion 1 "A" short_answer_question
                     (Spec.utf8 160 +:+ Spec.utf8 9 +:+ Spec.utf8 12288
                      +:+ " ")
                     (Spec.utf8 8232) [] 2 false;
          mkQuestion 2 "B" short_answer_question " " " x " [] 3 true;
          mkQuestion 2 "B" short_answer_question " " " x " [] 3 true])
      (mkQuestion 2 "B" short_answer_question " " " x " [] 3 true)
    = 2%nat.
Proof.
  assert (Hx : ¬ Spec.blank " x ").
  { intros H. apply trim_empty_blank in H. discriminate H. }
  split; [intros H; apply trim_empty_blank in H; discriminate H|].
  split; [apply trim_empty_blank; reflexivity|].
  split; [reflexivity|].
  rewrite (proj1 (proj2 (proj2 (getNonEmptyQuestions_spec _)))
             (mkQuestion 2 "B" short_answer_question " " " x " [] 3 true)).
  - reflexivity.
  - right. right. exact Hx.
Defined.

(** *** [renameQuestionById] *)

(** X11.  [renameQuestionById] keeps the length and the order; an entry with the
    target id gets the new name and keeps every other field, any other
    entry is unchanged.  A second rename of the same id overrides the
    first. *)
Theorem renameQuestionById_spec qs (targetId : Z) (newName : string) :
  length (Nested.renameQuestionById qs targetId newName) = length qs
  ∧ (∀ i : nat,
       Nested.renameQuestionById qs targetId newName !! i
       = (λ q, if id q =? targetId then with_name q newName else q)
           <$> qs !! i)
  ∧ map id (Nested.renameQuestionById qs targetId newName) = map id qs
  ∧ (∀ n', Nested.renameQuestionById
             (Nested.renameQuestionById qs targetId n') targetId newName
           = Nested.renameQuestionById qs targetId newName).
Proof.
  unfold Nested.renameQuestionById.
  split; [apply length_map|]. split.
  { intros i. rewrite lookup_map. destruct (qs !! i) as [q|]; [|reflexivity].
    simpl. rewrite copy_id, (Z.eqb_sym (id q)). reflexivity. }
  split.
  { rewrite map_map. apply map_ext. intros q.
    destruct (targetId =? id q); reflexivity. }
  intros n'. rewrite map_map. apply map_ext. intros q.
  destruct (targetId =? id q) eqn:E; simpl; rewrite E;
    destruct q; reflexivity.
Qed.

(** *** A target id that does not occur *)

(** X12.  When no entry has the target id, [removeQuestion],
    [renameQuestionById], [changeQuestionTypeById] and [editOption] return
    the input as it is. *)
Theorem absent_target_identity qs (targetId : Z) :
  Forall (λ q, id q ≠ targetId) qs →
  Nested.removeQuestion qs targetId = qs
  ∧ (∀ n, Nested.renameQuestionById qs targetId n = qs)
  ∧ (∀ t, Nested.changeQuestionTypeById qs targetId t = qs)
  ∧ (∀ k x, Nested.editOption qs targetId k x = qs).
Proof.
  intros Habs.
  assert (Hmap : ∀ f : Nested.Question → Nested.Question,
            (∀ q, id q ≠ targetId → f q = q) → map f qs = qs).
  { intros f Hf. induction Habs as [|q qs Hq _ IH]; [reflexivity|].
    simpl. rewrite (Hf q Hq), IH. reflexivity. }
  split.
  { rewrite removeQuestion_filter. apply filter_all.
    eapply Forall_impl; [exact Habs|]. intros q Hq. simpl.
    apply negb_true_iff, Z.eqb_neq, Hq. }
  split; [intros n|split; [intros t|intros k x]]; apply Hmap; intros q Hq;
    (destruct (Z.eqb_spec targetId (id q)) as [Heq|_];
     [congruence|apply copy_id]).
Qed.

Lemma absent_target_identity_witness :
  Forall (λ q : Nested.Question, id q ≠ 7)
         [mkQuestion 1 "A" multiple_choice_question "" "" ["x"] 2 false;
          mkQuestion 2 "B" short_answer_question "" "" [] 3 true]
  ∧ Nested.editOption
      [mkQuestion 1 "A" multiple_choice_question "" "" ["x"] 2 false;
       mkQuestion 2 "B" short_answer_question "" "" [] 3 true] 7 0 "y"
    = [mkQuestion 1 "A" multiple_choice_question "" "" ["x"] 2 false;
       mkQuestion 2 "B" short_answer_question "" "" [] 3 true].
Proof.
  assert (H : Forall (λ q : Nested.Question, id q ≠ 7)
                [mkQuestion 1 "A" multiple_choice_question "" "" ["x"] 2
                            false;
                 mkQuestion 2 "B" short_answer_question "" "" [] 3 true]).
  { repeat constructor; simpl; lia. }
  split; [exact H|].
  exact (proj2 (proj2 (proj2 (absent_target_identity _ 7 H))) 0 "y").
Defined.

(** *** Short answers have no options *)

Lemma Forall_map_preserved (P : Nested.Question → Prop)
      (f : Nested.Question → Nested.Question) qs :
  (∀ q, P q → P (f q)) → Forall P qs → Forall P (map f qs).
Proof.
  intros Hf. induction 1 as [|q qs Hq _ IH]; simpl; constructor; auto.
Qed.

Lemma Forall_filter_preserved (P : Nested.Question → Prop)
      (p : Nested.Question → bool) qs :
  Forall P qs → Forall P (List.filter p qs).
Proof.
  rewrite !Forall_forall. intros H q Hq. apply H.
  apply list_elem_of_In. apply list_elem_of_In, filter_In in Hq. tauto.
Qed.

(** X13.  The invariant of the data model, that a short-answer question has no
    options, is kept by [changeQuestionTypeById] (which empties the options
    when it makes a question a short answer), and by
    [renameQuestionById], [publishAll], [removeQuestion],
    [getPublishedQuestions], [getNonEmptyQuestions] and
    [duplicateQuestionInArray]. *)
Theorem short_answer_no_options_kept qs :
  Forall (λ q, type q = short_answer_question → options q = []) qs →
  (∀ t ty, Forall (λ q, type q = short_answer_question → options q = [])
                  (Nested.changeQuestionTypeById qs t ty))
  ∧ (∀ t n, Forall (λ q, type q = short_answer_question → options q = [])
                   (Nested.renameQuestionById qs t n))
  ∧ Forall (λ q, type q = short_answer_question → options q = [])
           (Nested.publishAll qs)
  ∧ (∀ i, Forall (λ q, type q = short_answer_question → options q = [])
                 (Nested.removeQuestion qs i))
  ∧ Forall (λ q, type q = short_answer_question → options q = [])
           (Nested.getPublishedQuestions qs)
  ∧ Forall (λ q, type q = short_answer_question → options q = [])
           (Nested.getNonEmptyQuestions qs)
  ∧ (∀ t n, Forall (λ q, type q = short_answer_question → options q = [])
                   (Nested.duplicateQuestionInArray qs t n)).
Proof.
  intros Hinv.
  split.
  { intros t ty. apply Forall_map_preserved; [|exact Hinv].
    intros q Hq. destruct (t =? id q); [|rewrite copy_id; exact Hq].
    destruct ty; simpl; [discriminate|reflexivity]. }
  split.
  { intros t n. apply Forall_map_preserved; [|exact Hinv].
    intros q Hq. destruct (t =? id q); rewrite copy_id; exact Hq. }
  split.
  { apply Forall_map_preserved; [|exact Hinv]. intros q Hq. exact Hq. }
  split.
  { intros i. rewrite removeQuestion_filter.
    apply Forall_filter_preserved, Hinv. }
  split.
  { rewrite getPublishedQuestions_filter.
    apply Forall_filter_preserved, Hinv. }
  split; [apply Forall_filter_preserved, Hinv|].
  intros t n. unfold Nested.duplicateQuestionInArray, Js.flatMap.
  induction Hinv as [|q qs Hq _ IH]; simpl; [constructor|].
  destruct (id q =? t); simpl; rewrite ?copy_id;
    repeat (constructor; [exact Hq|]); exact IH.
Qed.

Lemma short_answer_no_options_kept_witness :
  Forall (λ q : Nested.Question,
            type q = short_answer_question → options q = [])
         [mkQuestion 1 "A" multiple_choice_question "" "" ["x"; "y"] 2 false;
          mkQuestion 2 "B" short_answer_question "" "" [] 3 true]
  ∧ Forall (λ q : Nested.Question,
              type q = short_answer_question → options q = [])
           (Nested.changeQuestionTypeById
              [mkQuestion 1 "A" multiple_choice_question "" "" ["x"; "y"] 2
                          false;
               mkQuestion 2 "B" short_answer_question "" "" [] 3 true]
              1 short_answer_question).
Proof.
  assert (H : Forall (λ q : Nested.Question,
                        type q = short_answer_question → options q = [])
                [mkQuestion 1 "A" multiple_choice_question "" "" ["x"; "y"]
                            2 false;
                 mkQuestion 2 "B" short_answer_question "" "" [] 3 true]).
  { constructor; [simpl; intros E; discriminate E|].
    constructor; [intros _; reflexivity|constructor]. }
  split; [exact H|].
  exact (proj1 (short_answer_no_options_kept _ H) 1 short_answer_question).
Defined.

(** *** [editOption] never drops an option *)

Lemma splice_one_length {A} (l : list A) (start : Z) (x : A) :
  (start < 0 ∧ l ≠ [] ∨ 0 ≤ start < Z.of_nat (length l)
   → length (Js.splice l start 1 x) = length l)
  ∧ (start < 0 ∧ l = [] ∨ Z.of_nat (length l) ≤ start
     → length (Js.splice l start 1 x) = S (length l)).
Proof.
  split.
  - intros [[Hneg Hne]|Hin].
    + rewrite splice_negative by assumption. apply length_insert.
    + rewrite splice_in_range by assumption. apply length_insert.
  - intros [[Hneg ->]|Hge].
    + rewrite splice_negative_empty by assumption. reflexivity.
    + rewrite splice_past_end by assumption. rewrite length_app. simpl. lia.
Qed.

(** X14.  Whatever the index, [editOption] changes nothing but the options of
    the entries with the target id, and their options never get shorter:
    the length grows by one when the index is [-1], is at or past the end,
    or the options are empty, and is unchanged otherwise. *)
Theorem editOption_options_length qs (targetId k : Z) (x : string)
        (i : nat) q :
  qs !! i = Some q →
  ∃ q', Nested.editOption qs targetId k x !! i = Some q'
    ∧ with_options q' (options q) = q
    ∧ (length (options q) ≤ length (options q') ≤ S (length (options q)))%nat
    ∧ (id q ≠ targetId → options q' = options q)
    ∧ (id q = targetId →
       (k = -1 ∨ Z.of_nat (length (options q)) ≤ k ∨ options q = []
        → length (options q') = S (length (options q)))
       ∧ (k ≠ -1 → k < Z.of_nat (length (options q)) → options q ≠ []
          → length (options q') = length (options q))).
Proof.
  intros Hq. unfold Nested.editOption. rewrite lookup_map, Hq. simpl.
  eexists; split; [reflexivity|].
  destruct (Z.eqb_spec targetId (id q)) as [Heq|Hne].
  - rewrite copy_id.
    destruct (splice_one_length (options q) k x) as [Hsame Hgrow].
    destruct (Z.eqb_spec k (-1)) as [Hk|Hk]; simpl.
    + rewrite splice_at_length, length_app. simpl.
      split; [destruct q; reflexivity|]. split; [lia|].
      split; [congruence|]. intros _. split; [intros _; lia|congruence].
    + split; [destruct q; reflexivity|].
      assert (Hcases : (k < 0 ∧ options q ≠ []
                        ∨ 0 ≤ k < Z.of_nat (length (options q)))
                       ∨ (k < 0 ∧ options q = []
                          ∨ Z.of_nat (length (options q)) ≤ k)).
      { destruct (options q) as [|o os]; [|simpl length];
          destruct (Z.lt_ge_cases k 0);
          [right; left; auto | right; right; simpl; lia
          | left; left; split; [assumption|discriminate] | ].
        destruct (Z.lt_ge_cases k (Z.of_nat (S (length os))));
          [left; right; lia|right; right; lia]. }
      split; [destruct Hcases as [H|H];
              [rewrite (Hsame H)|rewrite (Hgrow H)]; lia|].
      split; [congruence|]. intros _. split.
      * intros [?|[Hge|He]]; [contradiction| |].
        -- apply Hgrow. right. exact Hge.
        -- destruct (Z.lt_ge_cases k 0).
           ++ apply Hgrow. left. auto.
           ++ apply Hgrow. right. rewrite He. simpl. lia.
      * intros _ Hlt Hne'. apply Hsame.
        destruct (Z.lt_ge_cases k 0); [left; auto|right; lia].
  - rewrite copy_id. split; [destruct q; reflexivity|].
    split; [lia|]. split; [reflexivity|]. intros; congruence.
Qed.

Lemma editOption_options_length_witness :
  ∃ q' : Nested.Question,
    Nested.editOption
      [mkQuestion 1 "Q" multiple_choice_question "" "" ["a"; "b"] 2 false]
      1 5 "X" !! 0%nat = Some q'
    ∧ length (options q') = 3%nat.
Proof.
  destruct (editOption_options_length
              [mkQuestion 1 "Q" multiple_choice_question "" "" ["a"; "b"] 2
                          false] 1 5 "X" 0%nat _ eq_refl)
    as (q' & Hq' & _ & _ & _ & Ht).
  exists q'. split; [exact Hq'|].
  apply (proj1 (Ht eq_refl)). right. left. simpl. lia.
Defined.

(** *** [duplicateQuestionInArray] *)

Lemma duplicate_cons q qs (targetId newId : Z) :
  Nested.duplicateQuestionInArray (q :: qs) targetId newId
  = q :: (if id q =? targetId then [Spec.duplicate q newId] else [])
      ++ Nested.duplicateQuestionInArray qs targetId newId.
Proof.
  unfold Nested.duplicateQuestionInArray, Js.flatMap. simpl.
  rewrite duplicate_eq, copy_id. destruct (id q =? targetId); reflexivity.
Qed.

(** X15.  The result of [duplicateQuestionInArray] has one more entry for every
    entry with the target id, the input is a subsequence of it, and the
    entries it holds are those of the input and the duplicates of the
    matching ones. *)
Theorem duplicateQuestionInArray_length qs (targetId newId : Z) :
  (length (Nested.duplicateQuestionInArray qs targetId newId)
   = length qs + length (List.filter (λ q, (id q =? targetId)%Z) qs))%nat
  ∧ qs `sublist_of` Nested.duplicateQuestionInArray qs targetId newId
  ∧ ∀ q', q' ∈ Nested.duplicateQuestionInArray qs targetId newId
          ↔ q' ∈ qs
            ∨ ∃ q, q ∈ qs ∧ id q = targetId ∧ q' = Spec.duplicate q newId.
Proof.
  induction qs as [|q qs (IHl & IHs & IHm)].
  - split; [reflexivity|]. split; [constructor|].
    intros q'. split.
    + intros H. inversion H.
    + intros [H|(q & H & _)]; inversion H.
  - rewrite duplicate_cons. simpl.
    destruct (id q =? targetId) eqn:E; simpl;
      [apply Z.eqb_eq in E as Heq|apply Z.eqb_neq in E as Hne].
    + split; [rewrite IHl; lia|]. split.
      * apply sublist_skip, sublist_cons, IHs.
      * intros q'. rewrite !elem_of_cons, IHm. split.
        -- intros [->|[->|[H|(q0 & H0 & H1 & H2)]]]; eauto.
           ++ right. exists q. rewrite elem_of_cons. auto.
           ++ right. exists q0. rewrite elem_of_cons. auto.
        -- intros [[->|H]|(q0 & [->|H0]%elem_of_cons & H1 & ->)]; eauto 7.
    + split; [rewrite IHl; lia|]. split.
      * apply sublist_skip, IHs.
      * intros q'. rewrite !elem_of_cons, IHm. split.
        -- intros [->|[H|(q0 & H0 & H1 & H2)]]; eauto.
           right. exists q0. rewrite elem_of_cons. auto.
        -- intros [[->|H]|(q0 & [->|H0]%elem_of_cons & H1 & ->)];
             eauto 7. contradiction.
Qed.

Lemma duplicate_ids_bound qs (targetId newId i : Z) :
  i ∈ map id (Nested.duplicateQuestionInArray qs targetId newId) →
  i = newId ∨ i ∈ map id qs.
Proof.
  induction qs as [|q qs IH]; [intros H; inversion H|].
  rewrite duplicate_cons. simpl. destruct (id q =? targetId); simpl.
  - rewrite !elem_of_cons. intros [->|[->|H]]; auto.
    destruct (IH H); auto.
  - rewrite !elem_of_cons. intros [->|H]; auto. destruct (IH H); auto.
Qed.

Lemma duplicate_no_match qs (targetId newId : Z) :
  targetId ∉ map id qs →
  Nested.duplicateQuestionInArray qs targetId newId = qs.
Proof.
  induction qs as [|q qs IH]; [reflexivity|].
  change (map id (q :: qs)) with (id q :: map id qs).
  rewrite not_elem_of_cons. intros [Hq Hqs].
  rewrite duplicate_cons, (IH Hqs).
  destruct (Z.eqb_spec (id q) targetId); [congruence|reflexivity].
Qed.

(** X16.  When the ids of the input are pairwise distinct and the new id is not
    among them, the ids of the result of [duplicateQuestionInArray] are
    pairwise distinct too. *)
Theorem duplicateQuestionInArray_unique_ids qs (targetId newId : Z) :
  NoDup (map id qs) → newId ∉ map id qs →
  NoDup (map id (Nested.duplicateQuestionInArray qs targetId newId)).
Proof.
  induction qs as [|q qs IH]; [intros; constructor|].
  change (map id (q :: qs)) with (id q :: map id qs).
  rewrite NoDup_cons, not_elem_of_cons.
  intros [Hq Hnd] [Hnew Hnews]. rewrite duplicate_cons.
  destruct (Z.eqb_spec (id q) targetId) as [Heq|Hne]; simpl.
  - rewrite duplicate_no_match by congruence.
    apply NoDup_cons. split.
    + rewrite elem_of_cons. intros [H|H]; [congruence|contradiction].
    + apply NoDup_cons. split; assumption.
  - apply NoDup_cons. split; [|apply IH; assumption].
    intros H. apply duplicate_ids_bound in H as [H|H];
      [congruence|contradiction].
Qed.

Lemma duplicateQuestionInArray_unique_ids_witness :
  NoDup (map id
           [mkQuestion 1 "A" multiple_choice_question "" "" ["x"] 2 false;
            mkQuestion 2 "B" short_answer_question "" "" [] 3 true])
  ∧ (9 ∉ map id
           [mkQuestion 1 "A" multiple_choice_question "" "" ["x"] 2 false;
            mkQuestion 2 "B" short_answer_question "" "" [] 3 true])
  ∧ NoDup (map id
             (Nested.duplicateQuestionInArray
                [mkQuestion 1 "A" multiple_choice_question "" "" ["x"] 2
                            false;
                 mkQuestion 2 "B" short_answer_question "" "" [] 3 true]
                2 9)).
Proof.
  assert (H1 : NoDup (map id
             [mkQuestion 1 "A" multiple_choice_question "" "" ["x"] 2 false;
              mkQuestion 2 "B" short_answer_question "" "" [] 3 true])).
  { simpl. apply NoDup_cons. split.
    - rewrite list_elem_of_singleton. lia.
    - apply NoDup_singleton. }
  assert (H2 : 9 ∉ map id
             [mkQuestion 1 "A" multiple_choice_question "" "" ["x"] 2 false;
              mkQuestion 2 "B" short_answer_question "" "" [] 3 true]).
  { simpl. rewrite !not_elem_of_cons. repeat split; try lia.
    apply not_elem_of_nil. }
  split; [exact H1|]. split; [exact H2|].
  exact (duplicateQuestionInArray_unique_ids _ 2 9 H1 H2).
Defined.

(** X17.  Duplicating under an id that no question has and then removing that id
    gives the input back. *)
Theorem removeQuestion_duplicateQuestionInArray qs (targetId newId : Z) :
  Forall (λ q, id q ≠ newId) qs →
  Nested.removeQuestion
    (Nested.duplicateQuestionInArray qs targetId newId) newId
  = qs.
Proof.
  intros Hqs. rewrite removeQuestion_filter.
  induction Hqs as [|q qs Hq _ IH]; [reflexivity|].
  rewrite duplicate_cons. simpl.
  destruct (Z.eqb_spec (id q) newId) as [|_]; [contradiction|]. simpl.
  destruct (id q =? targetId); simpl.
  - rewrite Z.eqb_refl. simpl. rewrite IH. reflexivity.
  - rewrite IH. reflexivity.
Qed.

Lemma removeQuestion_duplicateQuestionInArray_witness :
  Forall (λ q : Nested.Question, id q ≠ 9)
         [mkQuestion 1 "A" multiple_choice_question "" "" ["x"] 2 false;
          mkQuestion 2 "B" short_answer_question "" "" [] 3 true]
  ∧ Nested.removeQuestion
      (Nested.duplicateQuestionInArray
         [mkQuestion 1 "A" multiple_choice_question "" "" ["x"] 2 false;
          mkQuestion 2 "B" short_answer_question "" "" [] 3 true] 1 9) 9
    = [mkQuestion 1 "A" multiple_choice_question "" "" ["x"] 2 false;
       mkQuestion 2 "B" short_answer_question "" "" [] 3 true].
Proof.
  assert (H : Forall (λ q : Nested.Question, id q ≠ 9)
                [mkQuestion 1 "A" multiple_choice_question "" "" ["x"] 2
                            false;
                 mkQuestion 2 "B" short_answer_question "" "" [] 3 true]).
  { repeat constructor; simpl; lia. }
  split; [exact H|].
  exact (removeQuestion_duplicateQuestionInArray _ 1 9 H).
Defined.

(** *** [sameType] under the other functions *)

Lemma forallb_filter_preserved {A} (p r : A → bool) (l : list A) :
  forallb p l = true → forallb p (List.filter r l) = true.
Proof.
  rewrite !forallb_forall. intros H a Ha. apply H.
  apply filter_In in Ha. tauto.
Qed.

Lemma forallb_map_preserved {A} (p : A → bool) (f : A → A) (l : list A) :
  (∀ a, p (f a) = p a) → forallb p (map f l) = forallb p l.
Proof.
  intros Hf. induction l as [|a l IH]; [reflexivity|].
  simpl. rewrite Hf, IH. reflexivity.
Qed.

Lemma sameType_filter (r : Nested.Question → bool) qs :
  Nested.sameType qs = true → Nested.sameType (List.filter r qs) = true.
Proof.
  unfold Nested.sameType, Js.every. rewrite !orb_true_iff.
  intros [H|H]; [left|right]; apply forallb_filter_preserved, H.
Qed.

Lemma sameType_map (f : Nested.Question → Nested.Question) qs :
  (∀ q, type (f q) = type q) →
  Nested.sameType (map f qs) = Nested.sameType qs.
Proof.
  intros Hf. unfold Nested.sameType, Js.every.
  rewrite !forallb_map_preserved; [reflexivity|..];
    intros q; rewrite Hf; reflexivity.
Qed.

(** X18.  Questions that are all of one type stay so when some of them are
    dropped ([removeQuestion], [getPublishedQuestions],
    [getNonEmptyQuestions]); and [publishAll], [renameQuestionById] and
    [editOption], which do not touch the type, never change the answer of
    [sameType]. *)
Theorem sameType_kept qs :
  (Nested.sameType qs = true →
   (∀ i, Nested.sameType (Nested.removeQuestion qs i) = true)
   ∧ Nested.sameType (Nested.getPublishedQuestions qs) = true
   ∧ Nested.sameType (Nested.getNonEmptyQuestions qs) = true)
  ∧ Nested.sameType (Nested.publishAll qs) = Nested.sameType qs
  ∧ (∀ t n, Nested.sameType (Nested.renameQuestionById qs t n)
            = Nested.sameType qs)
  ∧ (∀ t k x, Nested.sameType (Nested.editOption qs t k x)
              = Nested.sameType qs).
Proof.
  split.
  { intros H. split; [intros i; rewrite removeQuestion_filter|split].
    - apply sameType_filter, H.
    - rewrite getPublishedQuestions_filter. apply sameType_filter, H.
    - apply sameType_filter, H. }
  split; [apply sameType_map; intros q; reflexivity|].
  split.
  - intros t n. apply sameType_map. intros q.
    destruct (t =? id q); reflexivity.
  - intros t k x. apply sameType_map. intros q.
    destruct (t =? id q), (k =? -1); reflexivity.
Qed.

Lemma sameType_kept_witness :
  Nested.sameType
    [mkQuestion 1 "A" short_answer_question "" "" [] 2 false;
     mkQuestion 2 "B" short_answer_question "" "" [] 3 true] = true
  ∧ Nested.sameType
      (Nested.removeQuestion
         [mkQuestion 1 "A" short_answer_question "" "" [] 2 false;
          mkQuestion 2 "B" short_answer_question "" "" [] 3 true] 1) = true.
Proof.
  split; [reflexivity|].
  apply (proj1 (sameType_kept
                  [mkQuestion 1 "A" short_answer_question "" "" [] 2 false;
                   mkQuestion 2 "B" short_answer_question "" "" [] 3 true])).
  reflexivity.
Defined.

(** *** [addNewQuestion] *)

Lemma find_app_found (i : Z) qs qs' q :
  List.find (λ x, id x =? i) qs = Some q →
  List.find (λ x, id x =? i) (qs ++ qs') = Some q.
Proof.
  induction qs as [|x qs IH]; simpl; [discriminate|].
  destruct (id x =? i); [trivial|exact IH].
Qed.

(** X19.  [addNewQuestion] keeps every entry of the input at its position and
    appends exactly one entry, the blank question made for the given id,
    name and type; the new entry never hides an entry that [findQuestion]
    found before. *)
Theorem addNewQuestion_spec qs (i : Z) (n : string) (t : QuestionType) :
  Nested.addNewQuestion qs i n t = qs ++ [Nested.makeBlankQuestion i n t]
  ∧ length (Nested.addNewQuestion qs i n t) = S (length qs)
  ∧ (∀ (k : nat) q, qs !! k = Some q →
                    Nested.addNewQuestion qs i n t !! k = Some q)
  ∧ Nested.addNewQuestion qs i n t !! length qs
    = Some (Nested.makeBlankQuestion i n t)
  ∧ (∀ j q, Nested.findQuestion qs j = Some q →
            Nested.findQuestion (Nested.addNewQuestion qs i n t) j = Some q).
Proof.
  assert (H : Nested.addNewQuestion qs i n t
              = qs ++ [Nested.makeBlankQuestion i n t]).
  { unfold Nested.addNewQuestion. cbv zeta. rewrite map_copy_id.
    reflexivity. }
  rewrite H. split; [reflexivity|].
  split; [rewrite length_app; simpl; lia|].
  split; [intros k q Hk; apply lookup_app_l_Some, Hk|].
  split; [apply list_lookup_middle; reflexivity|].
  intros j q. unfold Nested.findQuestion.
  destruct (List.find (λ x, id x =? j) qs) as [x|] eqn:E; [|discriminate].
  rewrite (find_app_found j qs _ x E). trivial.
Qed.

Lemma addNewQuestion_spec_witness :
  Nested.findQuestion
    [mkQuestion 1 "A" short_answer_question "" "" [] 2 false] 1
  = Some (mkQuestion 1 "A" short_answer_question "" "" [] 2 false)
  ∧ Nested.findQuestion
      (Nested.addNewQuestion
         [mkQuestion 1 "A" short_answer_question "" "" [] 2 false]
         1 "B" multiple_choice_question) 1
    = Some (mkQuestion 1 "A" short_answer_question "" "" [] 2 false).
Proof.
  split; [reflexivity|].
  apply (proj2 (proj2 (proj2 (proj2 (addNewQuestion_spec _ _ _ _))))).
  reflexivity.
Defined.

(** *** Looking up after a transformation *)

Lemma find_map_id (f : Nested.Question → Nested.Question) (i : Z) qs :
  (∀ q, id (f q) = id q) →
  List.find (λ x, id x =? i) (map f qs)
  = f <$> List.find (λ x, id x =? i) qs.
Proof.
  intros Hf. induction qs as [|q qs IH]; [reflexivity|].
  simpl. rewrite Hf. destruct (id q =? i); [reflexivity|exact IH].
Qed.

Lemma findQuestion_map (f : Nested.Question → Nested.Question) (i : Z) qs :
  (∀ q, id (f q) = id q) →
  Nested.findQuestion (map f qs) i = f <$> Nested.findQuestion qs i.
Proof.
  intros Hf. unfold Nested.findQuestion. rewrite (find_map_id f i qs Hf).
  destruct (List.find (λ x, id x =? i) qs) as [q|]; [|reflexivity].
  simpl. rewrite !copy_id. reflexivity.
Qed.

(** X20.  [publishAll], [renameQuestionById], [changeQuestionTypeById] and
    [editOption] keep the ids in place, so [findQuestion] on their result
    finds the transformed version of what it finds on the input, and finds
    nothing exactly when it found nothing before. *)
Theorem findQuestion_after qs (i : Z) :
  Nested.findQuestion (Nested.publishAll qs) i
  = (λ q, with_published q true) <$> Nested.findQuestion qs i
  ∧ (∀ t n, Nested.findQuestion (Nested.renameQuestionById qs t n) i
            = (λ q, if id q =? t then with_name q n else q)
                <$> Nested.findQuestion qs i)
  ∧ (∀ t ty, Nested.findQuestion (Nested.changeQuestionTypeById qs t ty) i
             = (λ q, if id q =? t
                     then with_options (with_type q ty)
                            (match ty with
                             | multiple_choice_question => options q
                             | short_answer_question => []
                             end)
                     else q)
                 <$> Nested.findQuestion qs i)
  ∧ (∀ t k x, Nested.findQuestion (Nested.editOption qs t k x) i = None
              ↔ Nested.findQuestion qs i = None).
Proof.
  split.
  { unfold Nested.publishAll. rewrite findQuestion_map by reflexivity.
    destruct (Nested.findQuestion qs i) as [q|]; [|reflexivity].
    simpl. rewrite copy_id. reflexivity. }
  split.
  { intros t n. unfold Nested.renameQuestionById.
    rewrite findQuestion_map
      by (intros q; destruct (t =? id q); reflexivity).
    destruct (Nested.findQuestion qs i) as [q|]; [|reflexivity].
    simpl. rewrite copy_id, (Z.eqb_sym (id q)). reflexivity. }
  split.
  { intros t ty. unfold Nested.changeQuestionTypeById.
    rewrite findQuestion_map
      by (intros q; destruct (t =? id q), ty; reflexivity).
    destruct (Nested.findQuestion qs i) as [q|]; [|reflexivity].
    simpl. rewrite copy_id, (Z.eqb_sym (id q)).
    destruct (t =? id q), ty, q; reflexivity. }
  intros t k x. unfold Nested.editOption.
  rewrite findQuestion_map
    by (intros q; destruct (t =? id q), (k =? -1); reflexivity).
  destruct (Nested.findQuestion qs i); simpl; split; congruence.
Qed.

(** *** What [toCSV] shows of a question *)

(** X24.  The text of [toCSV] depends on the id, the name, the number of
    options, the points and the published flag of each question and on
    nothing else: two sequences that agree on these, entry by entry, give
    the same text, whatever their types, bodies, expected answers and the
    options themselves are. *)
Theorem toCSV_fields_only qs qs' :
  map (λ q, (id q, name q, length (options q), points q, published q)) qs
  = map (λ q, (id q, name q, length (options q), points q, published q)) qs'
  → Nested.toCSV qs = Nested.toCSV qs'.
Proof.
  intros H. unfold Nested.toCSV. cbv zeta. do 3 f_equal.
  revert qs' H. induction qs as [|q qs IH]; intros [|q' qs'] H;
    try discriminate; [reflexivity|].
  simpl in H. injection H as Hi Hn Hl Hp Hb Hrest.
  simpl. rewrite Hi, Hn, Hl, Hp, Hb, (IH qs' Hrest). reflexivity.
Qed.

Lemma toCSV_fields_only_witness :
  Nested.toCSV
    [mkQuestion 5 "Colors" multiple_choice_question "Pick" "red"
                ["red"; "blue"] 1 true]
  = Nested.toCSV
      [mkQuestion 5 "Colors" short_answer_question "" "" ["x"; "y"] 1 true].
Proof. apply toCSV_fields_only. reflexivity. Defined.

End Composition.

(** ** Reference semantics: what a call leaves behind *)

Section Frame.

Import NestedHeap.

Implicit Types (σ : store) (qs out : list (Question_ positive)).

Lemma own_options_frame σ σ' out (l : positive) :
  own_options σ σ' out → l ∈ dom σ → σ' !! l = σ !! l.
Proof.
  intros (Hsub & _) [v Hv]%elem_of_dom.
  rewrite Hv. exact (lookup_weaken _ _ _ _ Hv Hsub).
Qed.

(** X21.  No function of the library changes an array that existed before the
    call: [getNonEmptyQuestions] and [findQuestion] on a miss leave the
    store as it is, and the others only allocate.  In particular the
    in-place [splice] of [editOption] works on the copy, never on the
    options of the input. *)
Theorem input_never_mutated qs σ (l : positive) :
  wf σ qs → l ∈ dom σ →
  (getPublishedQuestions qs σ).2 !! l = σ !! l
  ∧ (getNonEmptyQuestions qs σ).2 = σ
  ∧ (∀ i, (findQuestion qs i σ).2 !! l = σ !! l)
  ∧ (∀ i, (removeQuestion qs i σ).2 !! l = σ !! l)
  ∧ (publishAll qs σ).2 !! l = σ !! l
  ∧ (∀ i n t, (addNewQuestion qs i n t σ).2 !! l = σ !! l)
  ∧ (∀ i n, (renameQuestionById qs i n σ).2 !! l = σ !! l)
  ∧ (∀ i t, (changeQuestionTypeById qs i t σ).2 !! l = σ !! l)
  ∧ (∀ i k x, (editOption qs i k x σ).2 !! l = σ !! l)
  ∧ (∀ i j, (duplicateQuestionInArray qs i j σ).2 !! l = σ !! l).
Proof.
  intros Hwf Hl.
  split; [eapply own_options_frame;
          [apply getPublishedQuestions_call, Hwf|exact Hl]|].
  split; [apply getNonEmptyQuestions_same_objects|].
  split; [intros i; eapply own_options_frame;
          [apply findQuestion_call, Hwf|exact Hl]|].
  split; [intros i; eapply own_options_frame;
          [apply (removeQuestion_call i), Hwf|exact Hl]|].
  split; [eapply own_options_frame; [apply publishAll_call, Hwf|exact Hl]|].
  split; [intros i n t; eapply own_options_frame;
          [apply (addNewQuestion_call i n t), Hwf|exact Hl]|].
  split; [intros i n; eapply own_options_frame;
          [apply (renameQuestionById_call i n), Hwf|exact Hl]|].
  split; [intros i t; eapply own_options_frame;
          [apply (changeQuestionTypeById_call i t), Hwf|exact Hl]|].
  split; [intros i k x; eapply own_options_frame;
          [apply (editOption_call i k x), Hwf|exact Hl]|].
  intros i j; eapply own_options_frame;
    [apply (duplicateQuestionInArray_call i j), Hwf|exact Hl].
Qed.

Lemma input_never_mutated_witness :
  wf {[ 1%positive := ["a"; "b"] ]}
     [mkQuestion 1 "Q" multiple_choice_question "b" "" 1%positive 1 true]
  ∧ 1%positive ∈ dom ({[ 1%positive := ["a"; "b"] ]} : store)
  ∧ (editOption
       [mkQuestion 1 "Q" multiple_choice_question "b" "" 1%positive 1 true]
       1 0 "X" {[ 1%positive := ["a"; "b"] ]}).2 !! 1%positive
    = Some ["a"; "b"].
Proof.
  assert (Hd : 1%positive ∈ dom ({[ 1%positive := ["a"; "b"] ]} : store)).
  { apply elem_of_dom. exists ["a"; "b"]. reflexivity. }
  assert (Hwf : wf {[ 1%positive := ["a"; "b"] ]}
                   [mkQuestion 1 "Q" multiple_choice_question "b" ""
                               1%positive 1 true]).
  { constructor; [exact Hd|constructor]. }
  split; [exact Hwf|]. split; [exact Hd|].
  destruct (input_never_mutated _ _ 1%positive Hwf Hd)
    as (_ & _ & _ & _ & _ & _ & _ & _ & He & _).
  rewrite (He 1 0 "X"). reflexivity.
Defined.

(** X22.  What a function returns under reference semantics reads, in the store
    it leaves, as what the function returns under value semantics on what
    the input read as. *)
Theorem reference_semantics_agree qs σ :
  wf σ qs →
  deref (getPublishedQuestions qs σ).2 <$> (getPublishedQuestions qs σ).1
  = Nested.getPublishedQuestions (deref σ <$> qs)
  ∧ deref (getNonEmptyQuestions qs σ).2 <$> (getNonEmptyQuestions qs σ).1
    = Nested.getNonEmptyQuestions (deref σ <$> qs)
  ∧ (∀ i, deref (findQuestion qs i σ).2 <$> (findQuestion qs i σ).1
          = Nested.findQuestion (deref σ <$> qs) i)
  ∧ (∀ i, deref (removeQuestion qs i σ).2 <$> (removeQuestion qs i σ).1
          = Nested.removeQuestion (deref σ <$> qs) i)
  ∧ deref (publishAll qs σ).2 <$> (publishAll qs σ).1
    = Nested.publishAll (deref σ <$> qs)
  ∧ (∀ i n t, deref (addNewQuestion qs i n t σ).2
                <$> (addNewQuestion qs i n t σ).1
              = Nested.addNewQuestion (deref σ <$> qs) i n t)
  ∧ (∀ i n, deref (renameQuestionById qs i n σ).2
              <$> (renameQuestionById qs i n σ).1
            = Nested.renameQuestionById (deref σ <$> qs) i n)
  ∧ (∀ i t, deref (changeQuestionTypeById qs i t σ).2
              <$> (changeQuestionTypeById qs i t σ).1
            = Nested.changeQuestionTypeById (deref σ <$> qs) i t)
  ∧ (∀ i k x, deref (editOption qs i k x σ).2 <$> (editOption qs i k x σ).1
              = Nested.editOption (deref σ <$> qs) i k x)
  ∧ (∀ i j, deref (duplicateQuestionInArray qs i j σ).2
              <$> (duplicateQuestionInArray qs i j σ).1
            = Nested.duplicateQuestionInArray (deref σ <$> qs) i j).
Proof.
  intros Hwf.
  split; [apply getPublishedQuestions_call, Hwf|].
  split.
  { destruct (getNonEmptyQuestions_same_objects qs σ) as (Hs & _ & Hd).
    rewrite Hs. exact Hd. }
  split; [intros i; apply findQuestion_call, Hwf|].
  split; [intros i; apply (removeQuestion_call i), Hwf|].
  split; [apply publishAll_call, Hwf|].
  split; [intros i n t; apply (addNewQuestion_call i n t), Hwf|].
  split; [intros i n; apply (renameQuestionById_call i n), Hwf|].
  split; [intros i t; apply (changeQuestionTypeById_call i t), Hwf|].
  split; [intros i k x; apply (editOption_call i k x), Hwf|].
  intros i j; apply (duplicateQuestionInArray_call i j), Hwf.
Qed.

Lemma reference_semantics_agree_witness :
  wf {[ 1%positive := ["a"; "b"] ]}
     [mkQuestion 1 "Q" multiple_choice_question "b" "" 1%positive 1 true]
  ∧ deref
      (editOption
         [mkQuestion 1 "Q" multiple_choice_question "b" "" 1%positive 1 true]
         1 0 "X" {[ 1%positive := ["a"; "b"] ]}).2
    <$> (editOption
           [mkQuestion 1 "Q" multiple_choice_question "b" "" 1%positive 1
                       true]
           1 0 "X" {[ 1%positive := ["a"; "b"] ]}).1
    = [mkQuestion 1 "Q" multiple_choice_question "b" "" ["X"; "b"] 1 true].
Proof.
  assert (Hwf : wf {[ 1%positive := ["a"; "b"] ]}
                   [mkQuestion 1 "Q" multiple_choice_question "b" ""
                               1%positive 1 true]).
  { constructor; [|constructor].
    apply elem_of_dom. exists ["a"; "b"]. reflexivity. }
  split; [exact Hwf|].
  destruct (reference_semantics_agree _ _ Hwf)
    as (_ & _ & _ & _ & _ & _ & _ & _ & He & _).
  rewrite (He 1 0 "X"). reflexivity.
Defined.

(** X23.  No two questions that a copying function returns share an options
    array; in particular the copy and the duplicate that
    [duplicateQuestionInArray] makes of one question have an array
    each. *)
Theorem returned_options_distinct qs σ :
  wf σ qs →
  NoDup (options <$> (getPublishedQuestions qs σ).1)
  ∧ (∀ i, NoDup (options <$> (removeQuestion qs i σ).1))
  ∧ NoDup (options <$> (publishAll qs σ).1)
  ∧ (∀ i n t, NoDup (options <$> (addNewQuestion qs i n t σ).1))
  ∧ (∀ i n, NoDup (options <$> (renameQuestionById qs i n σ).1))
  ∧ (∀ i t, NoDup (options <$> (changeQuestionTypeById qs i t σ).1))
  ∧ (∀ i k x, NoDup (options <$> (editOption qs i k x σ).1))
  ∧ (∀ i j, NoDup (options <$> (duplicateQuestionInArray qs i j σ).1)).
Proof.
  intros Hwf.
  split; [apply getPublishedQuestions_call, Hwf|].
  split; [intros i; apply (removeQuestion_call i), Hwf|].
  split; [apply publishAll_call, Hwf|].
  split; [intros i n t; apply (addNewQuestion_call i n t), Hwf|].
  split; [intros i n; apply (renameQuestionById_call i n), Hwf|].
  split; [intros i t; apply (changeQuestionTypeById_call i t), Hwf|].
  split; [intros i k x; apply (editOption_call i k x), Hwf|].
  intros i j; apply (duplicateQuestionInArray_call i j), Hwf.
Qed.

Lemma returned_options_distinct_witness :
  wf {[ 1%positive := ["a"; "b"] ]}
     [mkQuestion 1 "Q" multiple_choice_question "b" "" 1%positive 1 true]
  ∧ NoDup (options
             <$> (duplicateQuestionInArray
                    [mkQuestion 1 "Q" multiple_choice_question "b" ""
                                1%positive 1 true]
                    1 9 {[ 1%positive := ["a"; "b"] ]}).1)
  ∧ length (duplicateQuestionInArray
              [mkQuestion 1 "Q" multiple_choice_question "b" "" 1%positive 1
                          true]
              1 9 {[ 1%positive := ["a"; "b"] ]}).1 = 2%nat.
Proof.
  assert (Hwf : wf {[ 1%positive := ["a"; "b"] ]}
                   [mkQuestion 1 "Q" multiple_choice_question "b" ""
                               1%positive 1 true]).
  { constructor; [|constructor].
    apply elem_of_dom. exists ["a"; "b"]. reflexivity. }
  split; [exact Hwf|]. split; [|reflexivity].
  destruct (returned_options_distinct _ _ Hwf)
    as (_ & _ & _ & _ & _ & _ & _ & Hd).
  exact (Hd 1 9).
Defined.

End Frame.
